(** * The [@event] command of the in-game event system

    A shallow embedding of [evennia/contrib/events/commands.py]: the command
    class [CmdEvent] (its [func] dispatcher and the [list_events],
    [add_event], [edit_event], [del_event] and [accept_event] methods) and
    the three editor callbacks [_ev_load], [_ev_save] and [_ev_quit],
    followed by the properties of the authoring workflow.

    Python dictionaries are finite maps from strings to dynamically typed
    values, exceptions are an explicit result type, and everything the
    command does to the outside (messages, tables, the editor, calls of the
    event handler) is threaded through a state-and-exception monad.  The
    string built-ins whose answer depends on the character set ([lower],
    [strip], [splitlines], [int]) are parameters of the code, so that what
    is proved holds with the built-ins of the interpreter. *)

From Stdlib Require Import ZArith Lia String Ascii List Permutation.
From stdpp Require Import base option list gmap strings sorting pretty.

Local Open Scope Z_scope.
Local Open Scope string_scope.

(** ** Python built-ins used by the module *)

(** The four built-ins of strings whose answers depend on the character
    set and the version of the interpreter: [s.lower()], [s.strip()],
    [s.splitlines()] and [int(s)], where [None] stands for [ValueError].
    The code is embedded over any such four functions.  Two facts about
    them are used: a text that has no line is the empty text, and a text
    that is blank once stripped is no integer. *)
Record Builtins := {
  lower : string -> string;
  strip : string -> string;
  splitlines : string -> list string;
  int : string -> option Z;
  splitlines_nil : forall s, splitlines s = nil -> s = "";
  int_of_blank : forall s, strip s = "" -> int s = None
}.

(** The built-ins on ASCII text, with which the examples are run, and the
    built-ins that do not depend on the character set. *)
Module Py.

(** The ASCII characters [str.strip] and [int] treat as white space: the
    space, the five control characters from tab to carriage return and the
    four separators from 28 to 31. *)
Definition is_space (c : ascii) : bool :=
  let n := nat_of_ascii c in
  (Nat.eqb n 32 || (Nat.leb 9 n && Nat.leb n 13)
   || (Nat.leb 28 n && Nat.leb n 31))%bool.

Fixpoint lstrip (s : string) : string :=
  match s with
  | String c s' => if is_space c then lstrip s' else s
  | EmptyString => EmptyString
  end.

Definition rstrip (s : string) : string := String.rev (lstrip (String.rev s)).

(** [s.strip()] *)
Definition strip (s : string) : string := rstrip (lstrip s).

(** [s.lower()] on ASCII text: only [A-Z] change. *)
Definition lower_char (c : ascii) : ascii :=
  let n := nat_of_ascii c in
  if (Nat.leb 65 n && Nat.leb n 90)%bool then ascii_of_nat (n + 32) else c.

Fixpoint lower (s : string) : string :=
  match s with
  | String c s' => String (lower_char c) (lower s')
  | EmptyString => EmptyString
  end.

(** [s.partition(" ")]: the text before the first space, the separator
    found, and the text after it; [(s, "", "")] when there is no space. *)
Fixpoint partition_space (s : string) : string * string * string :=
  match s with
  | String c s' =>
      if Ascii.eqb c " " then (EmptyString, " ", s')
      else let '(before, sep, after) := partition_space s' in
           (String c before, sep, after)
  | EmptyString => (EmptyString, EmptyString, EmptyString)
  end.

(** The ASCII characters that end a line by themselves: line feed,
    vertical tab, form feed and the separators 28, 29 and 30. *)
Definition is_line_end (c : ascii) : bool :=
  let n := nat_of_ascii c in
  ((Nat.leb 10 n && Nat.leb n 12) || (Nat.leb 28 n && Nat.leb n 30))%bool.

(** [s.splitlines()] on ASCII text: lines are ended by one of these
    characters, by "\r" or by "\r\n"; the line ends are dropped and a final
    line end opens no further line.  [cur] is the text of the line being
    read. *)
Fixpoint splitlines_from (cur : string) (s : string) : list string :=
  match s with
  | String c s' =>
      if is_line_end c then cur :: splitlines_from EmptyString s'
      else if Ascii.eqb c "013" then
        match s' with
        | String c' s'' =>
            if Ascii.eqb c' "010" then cur :: splitlines_from EmptyString s''
            else cur :: splitlines_from EmptyString s'
        | EmptyString => cur :: nil
        end
      else splitlines_from (cur ++ String c EmptyString) s'
  | EmptyString =>
      match cur with EmptyString => nil | _ => cur :: nil end
  end.

Definition splitlines (s : string) : list string :=
  splitlines_from EmptyString s.

(** [int(s)] on ASCII text: optional white space around an optional sign
    and one or more decimal digits, where single underscores may stand
    between digits (as Python reads them from version 3.6 on).  [None]
    stands for [ValueError]. *)
Definition digit_of (c : ascii) : option Z :=
  let n := nat_of_ascii c in
  if (Nat.leb 48 n && Nat.leb n 57)%bool then Some (Z.of_nat n - 48) else None.

(** [after_digit] tells whether the character before was a digit: only
    then may an underscore follow or the text end. *)
Fixpoint digits_value (acc : Z) (after_digit : bool) (s : string) : option Z :=
  match s with
  | String c s' =>
      if Ascii.eqb c "_" then
        if after_digit then digits_value acc false s' else None
      else
        match digit_of c with
        | Some d => digits_value (10 * acc + d) true s'
        | None => None
        end
  | EmptyString => if after_digit then Some acc else None
  end.

Definition unsigned_int (s : string) : option Z := digits_value 0 false s.

Definition int (s : string) : option Z :=
  match strip s with
  | String "+" d => unsigned_int d
  | String "-" d => Z.opp <$> unsigned_int d
  | d => unsigned_int d
  end.

(** [str(n)] for an integer. *)
Definition str_int (n : Z) : string := pretty n.

(** The two facts asked of the built-ins, for the ones on ASCII text. *)
Definition splitlines_from_nil (cur s : string) :
  splitlines_from cur s = nil -> cur = "" /\ s = "".
Proof.
  revert cur. induction s as [|c s IH]; intros cur; simpl.
  - by destruct cur.
  - destruct (is_line_end c); [done|].
    destruct (Ascii.eqb c "013").
    + destruct s as [|c' s']; [done|]. by destruct (Ascii.eqb c' "010").
    + intros [Hcur _]%IH. by destruct cur.
Qed.

Definition splitlines_nil (s : string) : splitlines s = nil -> s = "".
Proof. intros H. by apply splitlines_from_nil in H as [_ ?]. Qed.

Definition int_of_blank (s : string) : strip s = "" -> int s = None.
Proof. intros Hs. unfold int. by rewrite Hs. Qed.

Definition ascii : Builtins :=
  Build_Builtins lower strip splitlines int splitlines_nil int_of_blank.

End Py.

(** ** Values, dictionaries and exceptions *)

(** A game object (or player): its database id, its [key] (what [str(obj)]
    and [author.key] show) and the path of its typeclass (what [type(obj)]
    stands for). *)
Record Obj := {
  dbref : Z;
  key : string;
  typeclass : string
}.

(** The values that occur in an event dictionary.  Times are seconds. *)
Inductive Val :=
| VNone
| VBool (b : bool)
| VInt (n : Z)
| VStr (s : string)
| VObj (o : Obj)
| VTime (t : Z).

(** A Python [dict] with string keys. *)
Abbreviation Dict := (gmap string Val).

(** Python truthiness: [if v:]. *)
Definition truthy (v : Val) : bool :=
  match v with
  | VNone => false
  | VBool b => b
  | VInt n => negb (Z.eqb n 0)
  | VStr s => negb (String.eqb s "")
  | VObj _ => true
  | VTime _ => true
  end.

(** [d.get(k)]: [None] when the key is absent. *)
Definition dict_get (d : Dict) (k : string) : Val := default VNone (d !! k).

(** [not d] for a dictionary held in an attribute: unset or empty. *)
Definition dict_falsy (d : option Dict) : bool :=
  match d with
  | Some d => bool_decide (d = ∅)
  | None => true
  end.

(** [str(obj)] and ["{}".format(type(obj))]. *)
Definition str_obj (o : Obj) : string := key o.
Definition str_type (o : Obj) : string := "<class '" ++ typeclass o ++ "'>".

(** The exceptions that can leave the code.  The last two are the typed
    failures of the event handler. *)
Inductive exn :=
| ValueError
| AssertionError
| IndexError
| KeyError
| AttributeError
| TypeError
| UnknownEventType
| IndexOutOfRange.

Inductive result (A : Type) :=
| Ok (a : A)
| Raise (e : exn).
Arguments Ok {A} a.
Arguments Raise {A} e.

Definition result_bind {A B} (r : result A) (k : A -> result B) : result B :=
  match r with
  | Ok a => k a
  | Raise e => Raise e
  end.

(** A loop body that may raise, run over a list in order: the first
    exception ends the loop. *)
Fixpoint result_map {A B} (f : A -> result B) (l : list A) : result (list B) :=
  match l with
  | nil => Ok nil
  | x :: l' =>
      result_bind (f x) (fun y =>
      result_bind (result_map f l') (fun ys => Ok (y :: ys)))
  end.

(** ** The event handler

    The handler script lives in another module of the package; the command
    only calls four of its methods. *)

(** An event type of a typeclass: the names of its variables and its help
    text ([infos[1]] in the command). *)
Abbreviation EventType := (list string * string)%type.

(** Modelled from the spec: the state of the handler, which is not part
    of this source file.  The Event Store is a "persistent per-object
    mapping from event name to an ordered list of event-binding records",
    the Event Type Registry a "per-object-class mapping from event name to
    (parameter signature, description)". *)
Record HandlerState := {
  (** object id -> event name -> bindings, in order *)
  events : gmap Z (gmap string (list Dict));
  (** typeclass path -> event name -> event type *)
  event_types : gmap string (gmap string EventType)
}.

Module Handler.

(** Modelled from the spec: the handler's [get_events], which is not part
    of this source file.  "Never fails; absent object yields empty
    mapping." *)
Definition get_events (h : HandlerState) (obj : Obj) : gmap string (list Dict) :=
  default ∅ (events h !! dbref obj).

(** Modelled from the spec: the handler's [get_event_types], which is not
    part of this source file.  "Read-only, always succeeds (empty mapping if
    the class defines none)." *)
Definition get_event_types (h : HandlerState) (obj : Obj) : gmap string EventType :=
  default ∅ (event_types h !! typeclass obj).

(** Modelled from the spec: the record the store keeps for a new binding
    (code, author, valid, created_on; "updated_on is absent until the
    first edit after creation"); the handler is not part of this source
    file. *)
Definition new_binding (code : string) (author : Obj) (valid : bool) (now : Z) : Dict :=
  {[ "code" := VStr code; "author" := VObj author;
     "valid" := VBool valid; "created_on" := VTime now ]}.

(** Modelled from the spec: the binding as the handler hands it out, the
    stored record together with its address (object_ref, event_name,
    index); the keys are those [edit_event] of the command and [_ev_save]
    use for them. *)
Definition addressed (b : Dict) (obj : Obj) (name : string) (number : Z) : Dict :=
  <["number" := VInt number]> (<["name" := VStr name]> (<["obj" := VObj obj]> b)).

(** Modelled from the spec: the write of the list of bindings of an
    object under a name, shared by the two writing methods. *)
Definition set_bindings (h : HandlerState) (obj : Obj) (name : string)
    (l : list Dict) : HandlerState :=
  {| events := <[dbref obj := <[name := l]> (get_events h obj)]> (events h);
     event_types := event_types h |}.

(** Modelled from the spec: the handler's [add_event], which is not part of
    this source file.  "Appends a new binding at the end of the list for
    (object_ref, event_name); fails with UnknownEventType if event_name is
    not registered for the object's class.  New binding's created_on = now,
    updated_on = absent." *)
Definition add_event (h : HandlerState) (obj : Obj) (name code : string)
    (author : Obj) (valid : bool) (now : Z) : result (Dict * HandlerState) :=
  match get_event_types h obj !! name with
  | None => Raise UnknownEventType
  | Some _ =>
      let old := default nil (get_events h obj !! name) in
      let b := new_binding code author valid now in
      Ok (addressed b obj name (Z.of_nat (length old)),
          set_bindings h obj name (old ++ b :: nil))
  end.

(** Modelled from the spec: the handler's [edit_event], which is not part
    of this source file.  "Fails with IndexOutOfRange if index does not
    address an existing binding.  Replaces code, sets author to the new
    editor, sets updated_on = now, sets valid per argument." *)
Definition edit_event (h : HandlerState) (obj : Obj) (name : string) (number : Z)
    (code : string) (author : Obj) (valid : bool) (now : Z)
    : result (Dict * HandlerState) :=
  let old := default nil (get_events h obj !! name) in
  if Z.ltb number 0 then Raise IndexOutOfRange
  else match old !! Z.to_nat number with
       | None => Raise IndexOutOfRange
       | Some b =>
           let b' := <["valid" := VBool valid]> (<["updated_on" := VTime now]>
                     (<["author" := VObj author]> (<["code" := VStr code]> b))) in
           Ok (addressed b' obj name number,
               set_bindings h obj name (<[Z.to_nat number := b']> old))
       end.

End Handler.

(** ** The world the command runs in *)

(** A cell of a table row: a string or an integer, as passed to
    [add_row]. *)
Inductive Cell :=
| CStr (s : string)
| CInt (n : Z).

(** An [EvTable]: the column titles, the width asked for, the rows added
    and the columns reformatted with [align="r"]. *)
Record EvTable := {
  header : list string;
  width : Z;
  rows : list (list Cell);
  right_aligned : list nat
}.

(** The methods [func] dispatches to. *)
Inductive Method :=
| m_list_events
| m_add_event
| m_edit_event
| m_del_event
| m_accept_event.

(** What a run does to the outside, in order: text and tables sent to a
    player, editors opened, calls of the handler's two writing methods (with
    the arguments as passed), and the methods of [CmdEvent] entered. *)
Inductive Effect :=
| Msg (to : Obj) (text : string)
| MsgTable (to : Obj) (table : EvTable)
| EvEditor (who : Obj) (editor_key : string) (persistent : bool)
| CallAddEvent (obj : Obj) (name code : string) (author : Obj) (valid : bool)
| CallEditEvent (obj name number : Val) (code : string) (author : Obj) (valid : bool)
| Enter (m : Method).

Record World := {
  (** what [get_event_handler()] returns: the running handler, or [None] *)
  handler : option HandlerState;
  (** [caller.db._event], by the id of the caller; unset reads as [None] *)
  db_event : gmap Z Dict;
  trace : list Effect;
  (** [datetime.now()], in seconds *)
  clock : Z;
  (** [caller.locks.check_lockstring(caller, lock)] *)
  check_lockstring : Obj -> string -> bool;
  (** [caller.search(name)]: the object found, or [None]; what the search
      itself tells the caller is the library's and is not recorded *)
  search : Obj -> string -> option Obj
}.

Definition with_trace (w : World) (t : list Effect) : World :=
  {| handler := handler w; db_event := db_event w; trace := t; clock := clock w;
     check_lockstring := check_lockstring w; search := search w |}.

Definition with_handler (w : World) (h : HandlerState) : World :=
  {| handler := Some h; db_event := db_event w; trace := trace w; clock := clock w;
     check_lockstring := check_lockstring w; search := search w |}.

Definition with_db_event (w : World) (d : gmap Z Dict) : World :=
  {| handler := handler w; db_event := d; trace := trace w; clock := clock w;
     check_lockstring := check_lockstring w; search := search w |}.

(** ** A state-and-exception monad for the command code *)

Definition M (A : Type) : Type := World -> result A * World.

Definition ret {A} (a : A) : M A := fun w => (Ok a, w).

Definition raise {A} (e : exn) : M A := fun w => (Raise e, w).

Definition bind {A B} (m : M A) (k : A -> M B) : M B :=
  fun w => match m w with
           | (Ok a, w') => k a w'
           | (Raise e, w') => (Raise e, w')
           end.

Declare Scope cmd_scope.
Delimit Scope cmd_scope with cmd.
Notation "x <- m ;; k" := (bind m (fun x => k))
  (at level 100, m at next level, right associativity) : cmd_scope.
Notation "m ;; k" := (bind m (fun _ => k))
  (at level 100, right associativity) : cmd_scope.
Local Open Scope cmd_scope.

(** A pure computation that may raise. *)
Definition lift {A} (r : result A) : M A := fun w => (r, w).

Definition emit (e : Effect) : M unit :=
  fun w => (Ok tt, with_trace w (trace w ++ e :: nil)).

(** [caller.msg(text)] and [self.msg(text)]: both reach the caller. *)
Definition msg (to : Obj) (text : string) : M unit := emit (Msg to text).

Definition msg_table (to : Obj) (t : EvTable) : M unit := emit (MsgTable to t).

Definition get_event_handler : M (option HandlerState) :=
  fun w => (Ok (handler w), w).

(** [self.handler] where a method uses it: an attribute of [None] cannot
    be read. *)
Definition self_handler : M HandlerState :=
  fun w => match handler w with
           | Some h => (Ok h, w)
           | None => (Raise AttributeError, w)
           end.

Definition datetime_now : M Z := fun w => (Ok (clock w), w).

Definition locks_check_lockstring (caller : Obj) (lock : string) : M bool :=
  fun w => (Ok (check_lockstring w caller lock), w).

Definition caller_search (caller : Obj) (name : string) : M (option Obj) :=
  fun w => (Ok (search w caller name), w).

(** [caller.db._event], [caller.db._event = event], [del caller.db._event] *)
Definition db_get_event (caller : Obj) : M (option Dict) :=
  fun w => (Ok (db_event w !! dbref caller), w).

Definition db_set_event (caller : Obj) (event : Dict) : M unit :=
  fun w => (Ok tt, with_db_event w (<[dbref caller := event]> (db_event w))).

Definition db_del_event (caller : Obj) : M unit :=
  fun w => (Ok tt, with_db_event w (delete (dbref caller) (db_event w))).

(** [handler.add_event(obj, event_name, code, author, valid)] *)
Definition handler_add_event (obj : Obj) (name code : string) (author : Obj)
    (valid : bool) : M Dict :=
  fun w =>
    let w := with_trace w (trace w ++ CallAddEvent obj name code author valid :: nil) in
    match handler w with
    | None => (Raise AttributeError, w)
    | Some h =>
        match Handler.add_event h obj name code author valid (clock w) with
        | Ok (event, h') => (Ok event, with_handler w h')
        | Raise e => (Raise e, w)
        end
    end.

(** [handler.edit_event(obj, name, number, code, author, valid=valid)] with
    the first three arguments read from a dictionary.  The handler is only
    specified for an object, a string and an integer; anything else is
    modelled as a [TypeError] that leaves the store alone. *)
Definition handler_edit_event (obj name number : Val) (code : string) (author : Obj)
    (valid : bool) : M Dict :=
  fun w =>
    let w := with_trace w (trace w ++ CallEditEvent obj name number code author valid :: nil) in
    match handler w with
    | None => (Raise AttributeError, w)
    | Some h =>
        match obj, name, number with
        | VObj o, VStr n, VInt i =>
            match Handler.edit_event h o n i code author valid (clock w) with
            | Ok (event, h') => (Ok event, with_handler w h')
            | Raise e => (Raise e, w)
            end
        | _, _, _ => (Raise TypeError, w)
        end
    end.

(** ** Settings and module constants *)

(** The three optional settings the module reads with [getattr]. *)
Record Settings := {
  EVENTS_WITH_VALIDATION : option string;
  EVENTS_WITHOUT_VALIDATION : option string;
  EVENTS_VALIDATING : option string
}.

Definition WITH_VALIDATION (s : Settings) : option string :=
  EVENTS_WITH_VALIDATION s.

Definition WITHOUT_VALIDATION (s : Settings) : string :=
  default "immortals" (EVENTS_WITHOUT_VALIDATION s).

Definition VALIDATING (s : Settings) : string :=
  default "immortals" (EVENTS_VALIDATING s).

(** ** The command *)

(** The command as the dispatcher hands it to [func]: the caller, the raw
    arguments, the two sides of the equal sign and the switches. *)
Record Cmd := {
  caller : Obj;
  args : string;
  lhs : string;
  rhs : option string;
  switches : list string
}.

(** The attributes [func] sets on [self] before it calls a method; [obj] is
    the object found, which [func] has checked before [list_events],
    [add_event] and [edit_event]. *)
Record Self := {
  self_caller : Obj;
  self_obj : Obj;
  event_name : string;
  parameters : string;
  is_validator : bool
}.

(** [enumerate(l)] *)
Fixpoint enumerate_from {A} (i : Z) (l : list A) : list (Z * A) :=
  match l with
  | nil => nil
  | x :: l' => (i, x) :: enumerate_from (i + 1) l'
  end.

Definition enumerate {A} (l : list A) : list (Z * A) := enumerate_from 0 l.

(** [sorted(types.items())]: the names are the keys of a dictionary, hence
    distinct, so the pairs are ordered by name alone; strings compare
    character by character on their codes. *)
Definition item_le (a b : string * EventType) : Prop := String.le a.1 b.1.

Global Instance item_le_dec : RelDecision item_le.
Proof. intros a b. unfold item_le. apply _. Defined.

Definition sorted_items (types : gmap string EventType) : list (string * EventType) :=
  merge_sort item_le (map_to_list types).

(** [str(parameters)] inside a message: [parameters] is the text typed, or
    the integer it was replaced with. *)
Definition str_val (v : Val) : string :=
  match v with
  | VStr s => s
  | VInt n => Py.str_int n
  | VBool true => "True"
  | VBool false => "False"
  | VNone => "None"
  | VObj o => str_obj o
  | VTime t => Py.str_int t
  end.

(** [len(e["code"].splitlines())] *)
Definition code_lines (py : Builtins) (e : Dict) : result Z :=
  match e !! "code" with
  | None => Raise KeyError
  | Some (VStr code) => Ok (Z.of_nat (length (splitlines py code)))
  | Some _ => Raise AttributeError
  end.

(** [sum(... for e in l)] *)
Fixpoint sum_lines (py : Builtins) (l : list Dict) : result Z :=
  match l with
  | nil => Ok 0
  | e :: l' =>
      result_bind (code_lines py e) (fun n =>
      result_bind (sum_lines py l') (fun m => Ok (n + m)))
  end.

(** The body of the loop over the event types in [list_events]. *)
Definition summary_row (py : Builtins) (events : gmap string (list Dict))
    (item : string * EventType) : result (list Cell) :=
  let '(name, infos) := item in
  let bindings := default nil (events !! name) in
  let number := Z.of_nat (length bindings) in
  result_bind (sum_lines py bindings) (fun lines =>
  match splitlines py infos.2 with
  | nil => Raise IndexError
  | description :: _ =>
      Ok (CStr name :: CInt number :: CInt lines :: CStr description :: nil)
  end).

Module CmdEvent.

Section Methods.

(** The built-ins of strings, as the interpreter has them. *)
Variable py : Builtins.

Variable settings : Settings.

(** [evennia.utils.utils.time_format(seconds, style)], which renders a
    duration; it is code of the library, taken as it comes. *)
Variable time_format : Z -> Z -> string.

(** The body of the loop over the bindings of one name in [list_events]. *)
Definition binding_row (validator : bool) (now : Z) (item : Z * Dict)
    : result (list Cell) :=
  let '(i, event) := item in
  let author := dict_get event "author" in
  result_bind
    (if truthy author then
       match author with
       | VObj a => Ok (key a)
       | _ => Raise AttributeError
       end
     else Ok "|gUnknown|n") (fun author =>
  let updated_on := dict_get event "updated_on" in
  let updated_on :=
    match updated_on with
    | VNone => dict_get event "created_on"
    | _ => updated_on
    end in
  result_bind
    (if truthy updated_on then
       match updated_on with
       | VTime t => Ok (time_format (now - t) 1)
       | _ => Raise TypeError
       end
     else Ok "|gUnknown|n") (fun updated_on =>
  let row := CStr (Py.str_int (i + 1)) :: CStr author :: CStr updated_on :: nil in
  Ok (if validator
      then (row ++ CStr (if truthy (dict_get event "valid") then "Yes" else "no") :: nil)%list
      else row))).

(** [CmdEvent.list_events] *)
Definition list_events (self : Self) : M unit :=
  emit (Enter m_list_events) ;;
  let obj := self_obj self in
  let event_name := event_name self in
  h <- self_handler ;;
  let events := Handler.get_events h obj in
  let types := Handler.get_event_types h obj in
  if truthy (VStr event_name) then
    match events !! event_name with
    | None =>
        msg (self_caller self)
            ("No event " ++ event_name ++ " has been set on " ++ str_obj obj ++ ".")
    | Some created =>
        let cols := "Number" :: "Author" :: "Updated" :: nil in
        let cols := if is_validator self then (cols ++ "Valid" :: nil)%list else cols in
        now <- datetime_now ;;
        table_rows <- lift (result_map (binding_row (is_validator self) now)
                                       (enumerate created)) ;;
        msg_table (self_caller self)
          {| header := cols; width := 78; rows := table_rows;
             right_aligned := 0%nat :: nil |}
    end
  else
    table_rows <- lift (result_map (summary_row py events) (sorted_items types)) ;;
    msg_table (self_caller self)
      {| header := "Event name" :: "Number" :: "Lines" :: "Description" :: nil;
         width := 78; rows := table_rows;
         right_aligned := 1%nat :: 2%nat :: nil |}.

(** The editor both [add_event] and [edit_event] open:
    [EvEditor(caller, loadfunc=_ev_load, savefunc=_ev_save,
    quitfunc=_ev_quit, key=..., persistent=True, codefunc=_ev_save)]. *)
Definition open_editor (self : Self) : M unit :=
  emit (EvEditor (self_caller self)
          ("Event " ++ event_name self ++ " of " ++ str_obj (self_obj self)) true).

(** [CmdEvent.add_event] *)
Definition add_event (self : Self) : M unit :=
  emit (Enter m_add_event) ;;
  let obj := self_obj self in
  let event_name := event_name self in
  h <- self_handler ;;
  let types := Handler.get_event_types h obj in
  match types !! event_name with
  | None =>
      msg (self_caller self)
          ("The event name " ++ event_name ++ " can't be found in " ++ str_obj obj
           ++ " of typeclass " ++ str_type obj ++ ".")
  | Some definition =>
      let description := definition.2 in
      msg (self_caller self) description ;;
      event <- handler_add_event obj event_name "" (self_caller self) false ;;
      db_set_event (self_caller self) event ;;
      open_editor self
  end.

(** The [try] block of [edit_event]: the value [parameters] holds when the
    block is left, and the binding found or the exception raised. *)
Definition try_parameters (parameters : string) (bindings : list Dict)
    : Val * result Dict :=
  match int py parameters with
  | None => (VStr parameters, Raise ValueError)
  | Some n =>
      let parameters := n - 1 in
      if Z.ltb parameters 0 then (VInt parameters, Raise AssertionError)
      else match bindings !! Z.to_nat parameters with
           | Some event => (VInt parameters, Ok event)
           | None => (VInt parameters, Raise IndexError)
           end
  end.

(** [except (AssertionError, ValueError):] *)
Definition caught (e : exn) : bool :=
  match e with
  | AssertionError | ValueError => true
  | _ => false
  end.

(** [CmdEvent.edit_event] *)
Definition edit_event (self : Self) : M unit :=
  emit (Enter m_edit_event) ;;
  let obj := self_obj self in
  let event_name := event_name self in
  h <- self_handler ;;
  let events := Handler.get_events h obj in
  let types := Handler.get_event_types h obj in
  match events !! event_name with
  | None =>
      msg (self_caller self)
          ("The event name " ++ event_name ++ " can't be found in " ++ str_obj obj ++ ".")
  | Some bindings =>
      match try_parameters (parameters self) bindings with
      | (parameters, Raise e) =>
          if caught e then
            msg (self_caller self)
                ("The event " ++ event_name ++ " " ++ str_val parameters
                 ++ " cannot be found in " ++ str_obj obj ++ ".")
          else raise e
      | (parameters, Ok event) =>
          match types !! event_name with
          | None => raise KeyError
          | Some definition =>
              let description := definition.2 in
              msg (self_caller self) description ;;
              let event := <["obj" := VObj obj]> event in
              let event := <["name" := VStr event_name]> event in
              let event := <["number" := parameters]> event in
              db_set_event (self_caller self) event ;;
              open_editor self
          end
      end
  end.

(** [CmdEvent.del_event] *)
Definition del_event (caller : Obj) : M unit :=
  emit (Enter m_del_event) ;;
  msg caller "Calling del.".

(** [CmdEvent.accept_event] *)
Definition accept_event (caller : Obj) : M unit :=
  emit (Enter m_accept_event) ;;
  msg caller "Calling accept.".

(** What the four branches of [func] that need an object do when there is
    none. *)
Definition with_obj (caller : Obj) (obj : option Obj) (method : Obj -> M unit) : M unit :=
  match obj with
  | None => msg caller "Specify an object's name or #ID."
  | Some o => method o
  end.

(** [CmdEvent.func] *)
Definition func (cmd : Cmd) : M unit :=
  let caller := caller cmd in
  let lock := "perm(" ++ VALIDATING settings ++ ") or perm(events_validating)" in
  validator <- locks_check_lockstring caller lock ;;
  handler <- get_event_handler ;;
  let rhs := default "" (rhs cmd) in
  let '(event_name, sep, parameters) := Py.partition_space rhs in
  let event_name := lower py event_name in
  match handler with
  | None =>
      msg caller "The event handler is not running, can't access the event system."
  | Some _ =>
      let searching := negb (String.eqb (strip py (args cmd)) "") in
      obj <- (if searching then caller_search caller (lhs cmd) else ret None) ;;
      if searching && negb (bool_decide (is_Some obj)) then ret tt
      else
        let self o :=
          {| self_caller := caller; self_obj := o; event_name := event_name;
             parameters := parameters; is_validator := validator |} in
        let switch := hd "" (switches cmd) in
        if String.eqb switch "" then
          with_obj caller obj (fun o => list_events (self o))
        else if String.eqb switch "add" then
          with_obj caller obj (fun o => add_event (self o))
        else if String.eqb switch "edit" then
          with_obj caller obj (fun o => edit_event (self o))
        else if String.eqb switch "del" then
          with_obj caller obj (fun _ => del_event caller)
        else if String.eqb switch "accept" && validator then
          accept_event caller
        else
          msg caller "Mutually exclusive or invalid switches were used, cannot proceed."
  end.

End Methods.

End CmdEvent.

(** ** The editor callbacks *)

(** The keys [_ev_save] wants in the session dictionary. *)
Definition session_keys : list string :=
  "obj" :: "name" :: "number" :: "valid" :: nil.

(** The condition [_ev_save] goes on under: [handler and event and
    all(key in event for key in ("obj", "name", "number", "valid"))]. *)
Definition can_save (handler : option HandlerState) (event : option Dict) : bool :=
  match handler, event with
  | Some _, Some d =>
      negb (dict_falsy event)
      && forallb (fun k => bool_decide (is_Some (d !! k))) session_keys
  | _, _ => false
  end.

Section Callbacks.

Variable settings : Settings.

(** [_ev_load] *)
Definition _ev_load (caller : Obj) : M Val :=
  event <- db_get_event caller ;;
  match event with
  | Some d =>
      if dict_falsy event then ret (VStr "")
      else let code := default (VStr "") (d !! "code") in
           ret (if truthy code then code else VStr "")
  | None => ret (VStr "")
  end.

(** [_ev_save] *)
Definition _ev_save (caller : Obj) (buf : string) : M bool :=
  let lock := "perm(" ++ WITHOUT_VALIDATION settings
              ++ ") or perm(events_without_validation)" in
  autovalid <- locks_check_lockstring caller lock ;;
  event <- db_get_event caller ;;
  handler <- get_event_handler ;;
  if negb (can_save handler event) then
    msg caller "Couldn't save this event." ;;
    ret false
  else
    let d := default ∅ event in
    handler_edit_event (dict_get d "obj") (dict_get d "name") (dict_get d "number")
                       buf caller autovalid ;;
    ret true.

(** [_ev_quit] *)
Definition _ev_quit (caller : Obj) : M unit :=
  db_del_event caller ;;
  msg caller "Exited the code editor.".

End Callbacks.

(** ** A small game used for the examples *)

Module Demo.

Definition door : Obj :=
  {| dbref := 7; key := "door"; typeclass := "typeclasses.exits.Exit" |}.

Definition builder : Obj :=
  {| dbref := 1; key := "anna"; typeclass := "typeclasses.characters.Character" |}.

Definition settings : Settings :=
  {| EVENTS_WITH_VALIDATION := Some "builders";
     EVENTS_WITHOUT_VALIDATION := None;
     EVENTS_VALIDATING := None |}.

Definition time_format (seconds style : Z) : string := Py.str_int seconds ++ "s".

Definition exit_types : gmap string EventType :=
  {[ "open" := ("character" :: nil, "When the door is opened." ++ String "010" "More.");
     "can_traverse" := ("character" :: nil, "Before a character goes through.") ]}.

Definition binding (code : string) (valid : bool) : Dict :=
  Handler.new_binding code builder valid 100.

(** A handler that knows the given event types of exits and holds the
    given bindings of the door. *)
Definition handler_of (types : gmap string EventType)
    (door_events : gmap string (list Dict)) : HandlerState :=
  {| events := {[ dbref door := door_events ]};
     event_types := {[ typeclass door := types ]} |}.

Definition handler_with (door_events : gmap string (list Dict)) : HandlerState :=
  handler_of exit_types door_events.

(** A world where the caller finds the door under the name "door" and
    holds the permissions [perms] says. *)
Definition world (h : option HandlerState) (session : option Dict)
    (perms : string -> bool) : World :=
  {| handler := h;
     db_event := match session with
                 | Some d => {[ dbref builder := d ]}
                 | None => ∅
                 end;
     trace := nil;
     clock := 160;
     check_lockstring := fun _ lock => perms lock;
     search := fun _ name => if String.eqb name "door" then Some door else None |}.

Definition cmd (switch : list string) (line : string) (l : string) (r : option string) : Cmd :=
  {| caller := builder; args := line; lhs := l; rhs := r; switches := switch |}.

(** What [func] sets on [self] for "door = open" followed by [params]. *)
Definition self_open (params : string) : Self :=
  {| self_caller := builder; self_obj := door; event_name := "open";
     parameters := params; is_validator := false |}.

Definition nobody (lock : string) : bool := false.
Definition everybody (lock : string) : bool := true.

(** The session of an author editing the first binding of "open" on the
    door, and one for a binding that has no number yet. *)
Definition session : Dict := Handler.addressed (binding "pass" true) door "open" 0.

Definition session_without_number : Dict := delete "number" session.

(** The door with one binding of "open", and the caller in the editor on
    it or on a binding without a number. *)
Definition one_binding : HandlerState :=
  handler_with {[ "open" := binding "pass" true :: nil ]}.

Definition editing (perms : string -> bool) : World :=
  world (Some one_binding) (Some session) perms.

Definition editing_without_number : World :=
  world (Some one_binding) (Some session_without_number) everybody.

(** The door with a binding of "knock", an event exits have no type for. *)
Definition orphaned : HandlerState :=
  handler_with {[ "knock" := binding "pass" true :: nil ]}.

Definition self_knock : Self :=
  {| self_caller := builder; self_obj := door; event_name := "knock";
     parameters := "1"; is_validator := false |}.

End Demo.

(** ** Vocabulary of the properties *)

(** The lock [func] checks to tell a validator, and the lock [_ev_save]
    checks to tell an author whose events need no validation. *)
Definition validator_lock (s : Settings) : string :=
  "perm(" ++ VALIDATING s ++ ") or perm(events_validating)".

Definition bypass_lock (s : Settings) : string :=
  "perm(" ++ WITHOUT_VALIDATION s ++ ") or perm(events_without_validation)".

(** A session [_ev_save] can work with: the handler is running and the
    caller's [db._event] holds the four keys. *)
Definition session_complete (w : World) (caller : Obj) (d : Dict) : Prop :=
  is_Some (handler w) /\ db_event w !! dbref caller = Some d
  /\ forall k, k ∈ session_keys -> is_Some (d !! k).

(** The session of a brand-new binding in the words of the specification:
    target object and event name (and the valid field), and no index. *)
Definition spec_new_binding_session (d : Dict) : Prop :=
  is_Some (d !! "obj") /\ is_Some (d !! "name") /\ is_Some (d !! "valid")
  /\ d !! "number" = None.

(** What the specification says of a save in such a session: it calls
    the store's [add_event]. *)
Definition save_adds_new_binding (settings : Settings) : Prop :=
  forall caller buf w d,
    is_Some (handler w) ->
    db_event w !! dbref caller = Some d ->
    spec_new_binding_session d ->
    exists obj name code author valid,
      CallAddEvent obj name code author valid
      ∈ trace (_ev_save settings caller buf w).2.

(** The bindings the store holds for an object under a name. *)
Definition stored (w : World) (obj : Obj) (name : string) : option (list Dict) :=
  match handler w with
  | Some h => Handler.get_events h obj !! name
  | None => None
  end.

(** The data model of a stored binding: its code is text, its author is
    an object or gone, its two dates are times or absent. *)
Definition none_or (P : Val -> Prop) (v : Val) : Prop := v = VNone \/ P v.

Definition is_obj (v : Val) : Prop := exists o, v = VObj o.
Definition is_time (v : Val) : Prop := exists t, v = VTime t.

Definition has_code (b : Dict) : Prop := exists code, b !! "code" = Some (VStr code).

Record binding_wf (b : Dict) : Prop := {
  wf_code : has_code b;
  wf_author : none_or is_obj (dict_get b "author");
  wf_updated_on : none_or is_time (dict_get b "updated_on");
  wf_created_on : none_or is_time (dict_get b "created_on")
}.

Definition events_wf (events : gmap string (list Dict)) : Prop :=
  forall name l, events !! name = Some l -> Forall binding_wf l.

Definition store_wf (h : HandlerState) : Prop :=
  forall id evs, events h !! id = Some evs -> events_wf evs.

Definition events_have_code (events : gmap string (list Dict)) : Prop :=
  forall name l b, events !! name = Some l -> b ∈ l -> has_code b.

(** Every event type comes with a description of at least one line. *)
Definition types_described (types : gmap string EventType) : Prop :=
  forall name infos, types !! name = Some infos -> infos.2 <> "".

(** The summary row the listing owes to an event type: its name, the
    number of its bindings, their lines of code, and the first line of
    its description. *)
Definition lines_of (py : Builtins) (b : Dict) : Z :=
  match b !! "code" with
  | Some (VStr code) => Z.of_nat (length (splitlines py code))
  | _ => 0
  end.

Definition total_lines (py : Builtins) (l : list Dict) : Z :=
  foldr (fun b n => lines_of py b + n) 0 l.

Definition first_line (py : Builtins) (text : string) : string :=
  hd "" (splitlines py text).

Definition expected_row (py : Builtins) (events : gmap string (list Dict))
    (item : string * EventType) : list Cell :=
  let bindings := default nil (events !! item.1) in
  CStr item.1 :: CInt (Z.of_nat (length bindings))
  :: CInt (total_lines py bindings) :: CStr (first_line py item.2.2) :: nil.

(** The cells the listing of one event owes to the binding at place [k]
    of the list, places counted from 0: its ordinal [k + 1], the key of
    its author or the placeholder, the time since its last update, or else
    since its creation, or the placeholder, and for a validator whether it
    is valid. *)
Definition author_cell (b : Dict) : string :=
  match dict_get b "author" with
  | VObj a => key a
  | _ => "|gUnknown|n"
  end.

Definition updated_cell (time_format : Z -> Z -> string) (now : Z) (b : Dict) : string :=
  match dict_get b "updated_on", dict_get b "created_on" with
  | VTime u, _ => time_format (now - u) 1
  | _, VTime c => time_format (now - c) 1
  | _, _ => "|gUnknown|n"
  end.

Definition binding_cells (time_format : Z -> Z -> string) (validator : bool)
    (now : Z) (k : nat) (b : Dict) : list Cell :=
  CStr (Py.str_int (Z.of_nat k + 1)) :: CStr (author_cell b)
  :: CStr (updated_cell time_format now b)
  :: (if validator
      then CStr (if truthy (dict_get b "valid") then "Yes" else "no") :: nil
      else nil).

(** The effects of a run that are calls of the store's writing methods. *)
Definition is_store_call (e : Effect) : bool :=
  match e with
  | CallAddEvent _ _ _ _ _ | CallEditEvent _ _ _ _ _ _ => true
  | _ => false
  end.

(** The effects a computation adds to the trace when run in [w] all
    satisfy [P]. *)
Definition emits_at {A} (P : Effect -> Prop) (m : M A) (w : World) : Prop :=
  exists es, trace (m w).2 = (trace w ++ es)%list /\ Forall P es.

Definition emits {A} (P : Effect -> Prop) (m : M A) : Prop :=
  forall w, emits_at P m w.

Definition not_accept (e : Effect) : Prop := e <> Enter m_accept_event.

(** An effect that is a call of the store, or the opening of the editor,
    names the event [name]. *)
Definition names (name : string) (e : Effect) : Prop :=
  match e with
  | CallAddEvent _ n _ _ _ => n = name
  | CallEditEvent _ n _ _ _ _ => n = VStr name
  | EvEditor _ key _ => exists o, key = "Event " ++ name ++ " of " ++ str_obj o
  | _ => True
  end.

(** Every session a run of [m] leaves is one that was there before the
    run, or one that records the event [name]. *)
Definition records {A} (name : string) (m : M A) : Prop :=
  forall w k event,
    db_event (m w).2 !! k = Some event ->
    db_event w !! k = Some event \/ event !! "name" = Some (VStr name).

(** A command with another right-hand side. *)
Definition with_rhs (c : Cmd) (r : option string) : Cmd :=
  {| caller := caller c; args := args c; lhs := lhs c; rhs := r;
     switches := switches c |}.

(** The event name and the parameters [func] reads from a right-hand
    side. *)
Definition rhs_event_name (r : string) : string := (Py.partition_space r).1.1.
Definition rhs_parameters (r : string) : string := (Py.partition_space r).2.

(** ** The help text

    [CmdEvent.get_help] and the module constants it joins. *)

(** [sep.join(l)] *)
Fixpoint join (sep : string) (l : list string) : string :=
  match l with
  | nil => ""
  | x :: nil => x
  | x :: l' => x ++ sep ++ join sep l'
  end.

Definition nl : string := String "010" "".

Definition BASIC_HELP : string := "Add, edit or delete events.".

Definition BASIC_USAGES : list string :=
  "@event object name [= event name]"
  :: "@event/add object name = event name [parameters]"
  :: "@event/edit object name = event name [event number]"
  :: "@event/del object name = event name [event number]"
  :: nil.

Definition BASIC_SWITCHES : list string :=
  "add - add and edit a new event"
  :: "edit - edit an existing event"
  :: "del - delete an existing event"
  :: nil.

Definition VALIDATOR_USAGES : list string :=
  "@event/accept [object name = event name [event number]]" :: nil.

Definition VALIDATOR_SWITCHES : list string :=
  "accept - show events to be validated or accept one" :: nil.

Definition BASIC_TEXT : string := "
This command is used to manipulate events.  An event can be linked to
an object, to fire at a specific moment.  You can use the command without
switches to see what event are active on an object:
    @event self
You can also specify an event name if you want the list of events associated
with this object of this name:
    @event north = can_traverse
You can also add, edit or remove events using the add, edit or del switches.
".

Definition VALIDATOR_TEXT : string := "
You can also use this command to validate events.  Depending on your game
setting, some users might be allowed to add new events, but these events
will not be fired until you accept them.  To see the events needing
validation, enter the /accept switch without argument:
    @event/accept
A table will show you the events that are not validated yet, who created
it and when.  You can then accept a specific event:
    @event here = enter
Or, if more than one events are connected here, specify the number:
    @event here = enter 3
Use the /del switch to remove events that should not be connected.
".

(** The text [get_help] builds once it knows whether the caller is a
    validator. *)
Definition help_text (validator : bool) : string :=
  let text := nl ++ BASIC_HELP ++ nl ++ nl ++ "Usages:" ++ nl ++ "    " in
  let text := text ++ join (nl ++ "    ") BASIC_USAGES in
  let text := if validator
              then text ++ nl ++ "    " ++ join (nl ++ "    ") VALIDATOR_USAGES
              else text in
  let text := text ++ nl ++ nl ++ "Switches:" ++ nl ++ "    " in
  let text := text ++ join (nl ++ "    ") BASIC_SWITCHES in
  let text := if validator
              then text ++ nl ++ "    " ++ join nl VALIDATOR_SWITCHES
              else text in
  let text := text ++ nl ++ BASIC_TEXT in
  let text := if validator then text ++ nl ++ VALIDATOR_TEXT else text in
  text.

(** [CmdEvent.get_help(caller, cmdset)]; the command set is not used. *)
Definition get_help (settings : Settings) (caller : Obj) : M string :=
  let lock := "perm(" ++ VALIDATING settings ++ ") or perm(events_validating)" in
  validator <- locks_check_lockstring caller lock ;;
  ret (help_text validator).

(** ** More vocabulary *)

(** [sub in s] for two strings. *)
Fixpoint starts_with (sub s : string) : bool :=
  match sub, s with
  | EmptyString, _ => true
  | String a sub', String b s' => Ascii.eqb a b && starts_with sub' s'
  | String _ _, EmptyString => false
  end.

Fixpoint contains (sub s : string) : bool :=
  starts_with sub s
  || match s with
     | String _ s' => contains sub s'
     | EmptyString => false
     end.

(** Every table among the effects has rows as wide as its header. *)
Definition rectangular (e : Effect) : Prop :=
  match e with
  | MsgTable _ t => Forall (fun row => length row = length (header t)) (rows t)
  | _ => True
  end.

(** The code a binding holds, when it holds one. *)
Definition code_of (b : Dict) : option string :=
  match b !! "code" with
  | Some (VStr code) => Some code
  | _ => None
  end.

(** A computation leaves a component of the world as it found it,
    whether it returns or raises. *)
Definition preserves {A X} (f : World -> X) (m : M A) : Prop :=
  forall w, f (m w).2 = f w.

(** The first switches [func] knows. *)
Definition known_switches : list string :=
  "" :: "add" :: "edit" :: "del" :: "accept" :: nil.

(** A binding after an edit through the store: the four fields
    [edit_event] of the handler sets. *)
Definition edited (b : Dict) (code : string) (author : Obj) (valid : bool)
    (now : Z) : Dict :=
  <["valid" := VBool valid]> (<["updated_on" := VTime now]>
  (<["author" := VObj author]> (<["code" := VStr code]> b))).

(** The session [edit_event] of the command makes of a binding. *)
Definition session_of (event : Dict) (obj : Obj) (name : string) (number : Z) : Dict :=
  <["number" := VInt number]> (<["name" := VStr name]> (<["obj" := VObj obj]> event)).

(** The key of the editor opened on an event of an object. *)
Definition editor_key (self : Self) : string :=
  "Event " ++ event_name self ++ " of " ++ str_obj (self_obj self).

(** The store of a world is within its data model. *)
Definition world_wf (w : World) : Prop :=
  forall h, handler w = Some h -> store_wf h.

(** ** More of the small game *)

Module Play.

(** The door with one binding of "open"; the handler stopped; the same
    for a caller who passes every lock. *)
Definition w : World := Demo.world (Some Demo.one_binding) None Demo.nobody.
Definition w_off : World := Demo.world None None Demo.nobody.
Definition w_trusted : World := Demo.world (Some Demo.one_binding) None Demo.everybody.

(** [self] for "door = fly", which is neither an event type of exits nor
    a name the door has bindings for. *)
Definition self_fly : Self :=
  {| self_caller := Demo.builder; self_obj := Demo.door; event_name := "fly";
     parameters := "1"; is_validator := false |}.

(** A binding of the door that was edited after it was made. *)
Definition updated : Dict :=
  edited (Demo.binding "pass" false) "pass again" Demo.builder true 130.

End Play.

(** * Properties *)

(** ** The built-ins on examples *)

Example strip_ex : Py.strip "  door " = "door".
Proof. reflexivity. Qed.

Example lower_ex : Py.lower "Can_Traverse" = "can_traverse".
Proof. reflexivity. Qed.

Example partition_ex : Py.partition_space "open 2 x" = ("open", " ", "2 x").
Proof. reflexivity. Qed.

Example partition_none_ex : Py.partition_space "open" = ("open", "", "").
Proof. reflexivity. Qed.

Example splitlines_ex :
  Py.splitlines ("a" ++ String "010" "" ++ String "013" (String "010" "b") ++ String "010" "")
  = "a" :: "" :: "b" :: nil.
Proof. reflexivity. Qed.

Example splitlines_empty_ex : Py.splitlines "" = nil.
Proof. reflexivity. Qed.

Example int_ex : Py.int " 12 " = Some 12 /\ Py.int "-3" = Some (-3)
                 /\ Py.int "abc" = None /\ Py.int "" = None /\ Py.int "0" = Some 0.
Proof. repeat split; reflexivity. Qed.

Example str_int_ex : Py.str_int (-1) = "-1" /\ Py.str_int 12 = "12".
Proof. split; reflexivity. Qed.

(** Strings are ordered by the codes of their characters: capitals come
    before small letters. *)
Example string_order_ex : String.le "Zoo" "ant" /\ ~ String.le "ant" "Zoo".
Proof. split; [done|]. by intros ?. Qed.

(** ** Running the monad *)

Ltac run :=
  unfold bind, ret, raise, lift, msg, msg_table, emit, get_event_handler,
    self_handler, datetime_now, locks_check_lockstring, caller_search,
    db_get_event, db_set_event, db_del_event; simpl.

Arguments can_save : simpl never.

Lemma forallb_session_keys (d : Dict) :
  forallb (fun k => bool_decide (is_Some (d !! k))) session_keys = true
  <-> forall k, k ∈ session_keys -> is_Some (d !! k).
Proof.
  rewrite forallb_forall. split.
  - intros H k Hk. apply list_elem_of_In in Hk.
    specialize (H k Hk). by apply bool_decide_eq_true in H.
  - intros H k Hk. apply bool_decide_eq_true, H. by apply list_elem_of_In.
Qed.

Lemma dict_falsy_with_key (d : Dict) k : is_Some (d !! k) -> dict_falsy (Some d) = false.
Proof.
  intros [v Hv]. simpl. apply bool_decide_eq_false. intros ->.
  by rewrite lookup_empty in Hv.
Qed.

Lemma can_save_complete w caller d :
  session_complete w caller d -> can_save (handler w) (db_event w !! dbref caller) = true.
Proof.
  intros ([h Hh] & Hd & Hkeys). rewrite Hh, Hd. unfold can_save.
  apply andb_true_iff. split.
  - apply negb_true_iff, (dict_falsy_with_key d "obj"), Hkeys. set_solver.
  - by apply forallb_session_keys.
Qed.

Lemma can_save_inv w caller :
  can_save (handler w) (db_event w !! dbref caller) = true ->
  exists d, session_complete w caller d.
Proof.
  unfold can_save, session_complete.
  destruct (handler w) as [h|]; [|done].
  destruct (db_event w !! dbref caller) as [d|]; [|done].
  intros [_ Hall]%andb_true_iff. exists d.
  split; [by eexists|]. split; [done|]. by apply forallb_session_keys.
Qed.

Lemma can_save_incomplete w caller :
  (handler w = None
   \/ db_event w !! dbref caller = None
   \/ exists d k, db_event w !! dbref caller = Some d
                  /\ k ∈ session_keys /\ d !! k = None) ->
  can_save (handler w) (db_event w !! dbref caller) = false.
Proof.
  intros H. apply not_true_iff_false. intros (d & [h Hh] & Hd & Hkeys)%can_save_inv.
  destruct H as [H|[H|(d' & k & Hd' & Hk & Hnone)]].
  - congruence.
  - congruence.
  - assert (d' = d) as -> by congruence.
    destruct (Hkeys k Hk) as [v Hv]. congruence.
Qed.

(** ** The store keeps its data model *)

Lemma new_binding_wf code author valid now :
  binding_wf (Handler.new_binding code author valid now).
Proof.
  split.
  - by exists code.
  - right. by exists author.
  - by left.
  - right. by exists now.
Qed.

Lemma edited_binding_wf b code author valid now :
  binding_wf b ->
  binding_wf (<["valid" := VBool valid]> (<["updated_on" := VTime now]>
              (<["author" := VObj author]> (<["code" := VStr code]> b)))).
Proof.
  intros [_ _ _ Hcreated]. split.
  - exists code. rewrite !lookup_insert_ne by done. apply lookup_insert_eq.
  - right. exists author. unfold dict_get.
    rewrite !lookup_insert_ne by done. by rewrite lookup_insert_eq.
  - right. exists now. unfold dict_get.
    rewrite !lookup_insert_ne by done. by rewrite lookup_insert_eq.
  - unfold dict_get in *. by rewrite !lookup_insert_ne by done.
Qed.

Lemma get_events_wf h obj : store_wf h -> events_wf (Handler.get_events h obj).
Proof.
  intros Hwf. unfold Handler.get_events.
  destruct (events h !! dbref obj) as [evs|] eqn:Hevs; simpl.
  - by apply (Hwf (dbref obj)).
  - intros name l. by rewrite lookup_empty.
Qed.

Lemma bindings_wf h obj name :
  store_wf h -> Forall binding_wf (default nil (Handler.get_events h obj !! name)).
Proof.
  intros Hwf. destruct (Handler.get_events h obj !! name) as [l|] eqn:Hl; simpl.
  - by apply (get_events_wf h obj Hwf name).
  - constructor.
Qed.

Lemma set_bindings_wf h obj name l :
  store_wf h -> Forall binding_wf l -> store_wf (Handler.set_bindings h obj name l).
Proof.
  intros Hwf Hl id evs. unfold Handler.set_bindings. simpl.
  destruct (decide (dbref obj = id)) as [<-|Hid].
  - rewrite lookup_insert_eq. intros [= <-] name' l'.
    destruct (decide (name = name')) as [<-|Hname].
    + rewrite lookup_insert_eq. by intros [= <-].
    + rewrite lookup_insert_ne by done. by apply get_events_wf.
  - rewrite lookup_insert_ne by done. apply Hwf.
Qed.

(** The store's two writing methods keep every binding within the data
    model. *)
Lemma add_event_keeps_wf h obj name code author valid now event h' :
  store_wf h ->
  Handler.add_event h obj name code author valid now = Ok (event, h') ->
  store_wf h'.
Proof.
  intros Hwf. unfold Handler.add_event.
  destruct (Handler.get_event_types h obj !! name); [|done].
  intros [= _ <-]. apply set_bindings_wf; [done|].
  apply Forall_app. split; [by apply bindings_wf|].
  constructor; [apply new_binding_wf|constructor].
Qed.

Lemma edit_event_keeps_wf h obj name number code author valid now event h' :
  store_wf h ->
  Handler.edit_event h obj name number code author valid now = Ok (event, h') ->
  store_wf h'.
Proof.
  intros Hwf. unfold Handler.edit_event.
  destruct (Z.ltb number 0); [done|].
  destruct (default nil (Handler.get_events h obj !! name) !! Z.to_nat number)
    as [b|] eqn:Hb; [|done].
  intros [= _ <-]. apply set_bindings_wf; [done|].
  pose proof (bindings_wf h obj name Hwf) as Hold.
  apply Forall_insert; [done|].
  apply edited_binding_wf.
  apply (proj1 (Forall_forall _ _) Hold). by apply list_elem_of_lookup_2 in Hb.
Qed.

Lemma events_wf_have_code events : events_wf events -> events_have_code events.
Proof.
  intros Hwf name l b Hl Hb.
  apply (wf_code b). apply (proj1 (Forall_forall _ _) (Hwf name l Hl)), Hb.
Qed.

(** ** Saving from the editor *)

Section Save.

Variable settings : Settings.

(** C6.  A save finds the handler not running, no session dictionary, or
    a session dictionary without one of the keys obj, name, number and
    valid: it returns [False], tells the caller that the event could not
    be saved, and leaves the store and the session as they were; the one
    effect is the message. *)
Theorem ev_save_incomplete_fails caller buf w :
  (handler w = None
   \/ db_event w !! dbref caller = None
   \/ exists d k, db_event w !! dbref caller = Some d
                  /\ k ∈ session_keys /\ d !! k = None) ->
  let (r, w') := _ev_save settings caller buf w in
  r = Ok false
  /\ trace w' = (trace w ++ Msg caller "Couldn't save this event." :: nil)%list
  /\ handler w' = handler w
  /\ db_event w' = db_event w.
Proof.
  intros H. unfold _ev_save. run.
  rewrite (can_save_incomplete w caller H). simpl. done.
Qed.

Lemma handler_edit_event_trace obj name number code author valid w :
  trace (handler_edit_event obj name number code author valid w).2
  = (trace w ++ CallEditEvent obj name number code author valid :: nil)%list.
Proof.
  unfold handler_edit_event. simpl.
  destruct (handler w) as [h|]; [|done].
  destruct obj, name, number; try done.
  by destruct (Handler.edit_event _ _ _ _ _ _ _ _) as [[??]|].
Qed.

(** C2 (as amended).  A save with a complete session, that is with the
    handler running and a session that holds obj, name, number and valid,
    makes one call of the store: [edit_event] with the number of the
    session (and its obj and name, the buffer, the caller and the answer
    of the permission check).  Any other save, a session without a number
    among them, sends the failure message and calls nothing: no save calls
    [add_event]. *)
Theorem ev_save_only_edits caller buf w :
  let w' := (_ev_save settings caller buf w).2 in
  (forall d, session_complete w caller d ->
     trace w' = (trace w ++
       CallEditEvent (dict_get d "obj") (dict_get d "name") (dict_get d "number")
         buf caller (check_lockstring w caller (bypass_lock settings)) :: nil)%list)
  /\ ((forall d, ~ session_complete w caller d) ->
      trace w' = (trace w ++ Msg caller "Couldn't save this event." :: nil)%list).
Proof.
  split.
  - intros d Hd. unfold _ev_save. run.
    rewrite (can_save_complete w caller d Hd). simpl.
    destruct Hd as (_ & -> & _). simpl.
    pose proof (handler_edit_event_trace (dict_get d "obj") (dict_get d "name")
      (dict_get d "number") buf caller
      (check_lockstring w caller (bypass_lock settings)) w) as Ht.
    unfold bypass_lock in Ht.
    destruct (handler_edit_event _ _ _ _ _ _ w) as [[?|?] w1]; exact Ht.
  - intros Hnot. unfold _ev_save. run.
    destruct (can_save (handler w) (db_event w !! dbref caller)) eqn:Hc; [|done].
    apply can_save_inv in Hc as [d Hd]. by destruct (Hnot d).
Qed.

Lemma get_events_set_bindings h obj name l :
  Handler.get_events (Handler.set_bindings h obj name l) obj !! name = Some l.
Proof.
  unfold Handler.get_events at 1. simpl.
  rewrite lookup_insert_eq. simpl. by rewrite lookup_insert_eq.
Qed.

(** C3.  When a save succeeds, the valid flag it passes to the store, and
    the flag the store then holds for the binding, is the answer the
    permission check gives for the saving caller in the world the save
    runs in: true exactly when the caller may bypass validation.  The
    world is arbitrary, so neither the flag the binding had nor any
    earlier save matters. *)
Theorem ev_save_valid_is_permission caller buf w w' :
  _ev_save settings caller buf w = (Ok true, w') ->
  let autovalid := check_lockstring w caller (bypass_lock settings) in
  exists d o n i,
    db_event w !! dbref caller = Some d
    /\ d !! "obj" = Some (VObj o) /\ d !! "name" = Some (VStr n)
    /\ d !! "number" = Some (VInt i)
    /\ trace w' = (trace w ++
         CallEditEvent (VObj o) (VStr n) (VInt i) buf caller autovalid :: nil)%list
    /\ exists l b,
         stored w' o n = Some l /\ l !! Z.to_nat i = Some b
         /\ b !! "valid" = Some (VBool autovalid)
         /\ b !! "code" = Some (VStr buf).
Proof.
  unfold _ev_save. run.
  destruct (can_save (handler w) (db_event w !! dbref caller)) eqn:Hc; [|done].
  apply can_save_inv in Hc as (d & [h Hh] & Hd & Hkeys). simpl.
  rewrite Hd. simpl. unfold handler_edit_event. simpl. rewrite Hh.
  destruct (Hkeys "obj") as [vo Ho]; [set_solver|].
  destruct (Hkeys "name") as [vn Hn]; [set_solver|].
  destruct (Hkeys "number") as [vi Hi]; [set_solver|].
  unfold dict_get. rewrite Ho, Hn, Hi. simpl.
  destruct vo as [| | | |o|]; try done.
  destruct vn as [| | |n| |]; try done.
  destruct vi as [| |i| | |]; try done.
  unfold Handler.edit_event.
  destruct (Z.ltb i 0); [done|].
  destruct (default [] (Handler.get_events h o !! n) !! Z.to_nat i) as [b|] eqn:Hb;
    [|done].
  intros [= <-]. exists d, o, n, i. repeat (split; [done|]).
  eexists _, _. unfold stored. simpl. split; [apply get_events_set_bindings|].
  split.
  - apply list_lookup_insert_eq. by apply lookup_lt_Some in Hb.
  - split; [apply lookup_insert_eq|].
    rewrite !lookup_insert_ne by done. apply lookup_insert_eq.
Qed.

End Save.

(** ** Adding and editing *)

Section Editing.

Variable py : Builtins.

Lemma try_parameters_found parameters bindings n :
  int py parameters = Some n -> 1 <= n <= Z.of_nat (length bindings) ->
  exists event, bindings !! Z.to_nat (n - 1) = Some event
    /\ CmdEvent.try_parameters py parameters bindings = (VInt (n - 1), Ok event).
Proof.
  intros Hint Hn. unfold CmdEvent.try_parameters. rewrite Hint.
  destruct (Z.ltb_spec (n - 1) 0); [lia|].
  destruct (lookup_lt_is_Some_2 bindings (Z.to_nat (n - 1))) as [event Hev]; [lia|].
  exists event. by rewrite Hev.
Qed.

Lemma try_parameters_beyond parameters bindings n :
  int py parameters = Some n -> Z.of_nat (length bindings) < n ->
  CmdEvent.try_parameters py parameters bindings = (VInt (n - 1), Raise IndexError).
Proof.
  intros Hint Hn. unfold CmdEvent.try_parameters. rewrite Hint.
  destruct (Z.ltb_spec (n - 1) 0); [lia|].
  rewrite lookup_ge_None_2; [done|lia].
Qed.

Lemma try_parameters_below parameters bindings n :
  int py parameters = Some n -> n < 1 ->
  CmdEvent.try_parameters py parameters bindings = (VInt (n - 1), Raise AssertionError).
Proof.
  intros Hint Hn. unfold CmdEvent.try_parameters. rewrite Hint.
  destruct (Z.ltb_spec (n - 1) 0); [done|lia].
Qed.

Lemma try_parameters_not_int parameters bindings :
  int py parameters = None ->
  CmdEvent.try_parameters py parameters bindings = (VStr parameters, Raise ValueError).
Proof. intros Hint. unfold CmdEvent.try_parameters. by rewrite Hint. Qed.

(** C8.  An edit request names an event that has bindings on the object
    and an ordinal that addresses one of them, but the event name is not
    among the event types of the object's typeclass: the look-up of the
    type raises [KeyError], which nothing catches.  Entering the method is
    all that happened: no message, no session set, no editor opened. *)
Theorem edit_event_orphaned_raises self w h bindings n :
  handler w = Some h ->
  Handler.get_events h (self_obj self) !! event_name self = Some bindings ->
  int py (parameters self) = Some n ->
  1 <= n <= Z.of_nat (length bindings) ->
  Handler.get_event_types h (self_obj self) !! event_name self = None ->
  CmdEvent.edit_event py self w
  = (Raise KeyError, with_trace w (trace w ++ Enter m_edit_event :: nil)).
Proof.
  intros Hh Hev Hint Hn Hty. unfold CmdEvent.edit_event. run.
  rewrite Hh, Hev.
  destruct (try_parameters_found _ bindings n Hint Hn) as (event & _ & ->).
  by rewrite Hty.
Qed.

(** The ordinals that [edit_event] does report as not found: text that is
    no integer, and integers below one. *)
Lemma edit_event_bad_ordinal_reported self w h bindings :
  handler w = Some h ->
  Handler.get_events h (self_obj self) !! event_name self = Some bindings ->
  (int py (parameters self) = None \/ exists n, int py (parameters self) = Some n /\ n < 1) ->
  exists shown,
    CmdEvent.edit_event py self w
    = (Ok tt, with_trace w (trace w ++ Enter m_edit_event
         :: Msg (self_caller self)
              ("The event " ++ event_name self ++ " " ++ shown
               ++ " cannot be found in " ++ str_obj (self_obj self) ++ ".") :: nil)).
Proof.
  intros Hh Hev Hbad. unfold CmdEvent.edit_event. run. rewrite Hh, Hev.
  destruct Hbad as [Hint|(n & Hint & Hn)].
  - rewrite (try_parameters_not_int _ bindings Hint). simpl.
    exists (parameters self). by rewrite <- app_assoc.
  - rewrite (try_parameters_below _ bindings n Hint Hn). simpl.
    exists (Py.str_int (n - 1)). by rewrite <- app_assoc.
Qed.

(** An ordinal beyond the bindings there are leaves [edit_event] as an
    [IndexError]. *)
Lemma edit_event_beyond_count_raises self w h bindings n :
  handler w = Some h ->
  Handler.get_events h (self_obj self) !! event_name self = Some bindings ->
  int py (parameters self) = Some n -> Z.of_nat (length bindings) < n ->
  CmdEvent.edit_event py self w
  = (Raise IndexError, with_trace w (trace w ++ Enter m_edit_event :: nil)).
Proof.
  intros Hh Hev Hint Hn. unfold CmdEvent.edit_event. run. rewrite Hh, Hev.
  by rewrite (try_parameters_beyond _ bindings n Hint Hn).
Qed.

(** C4.  The door has one binding of "open" and the caller enters
    "@event/edit door = open 2": the command ends in an [IndexError]
    instead of the message that the event cannot be found. *)
Theorem edit_second_of_one_raises :
  let w := Demo.world (Some (Demo.handler_with
             {[ "open" := Demo.binding "pass" true :: nil ]})) None Demo.nobody in
  CmdEvent.func Py.ascii Demo.settings Demo.time_format
    (Demo.cmd ("edit" :: nil) "door = open 2" "door" (Some "open 2")) w
  = (Raise IndexError, with_trace w (Enter m_edit_event :: nil)).
Proof. vm_compute. reflexivity. Qed.

Lemma edit_event_keeps_store self w :
  handler (CmdEvent.edit_event py self w).2 = handler w.
Proof.
  unfold CmdEvent.edit_event. run.
  destruct (handler w) as [h|] eqn:Hh; [|done].
  destruct (Handler.get_events h (self_obj self) !! event_name self) as [l|]; [|done].
  destruct (CmdEvent.try_parameters py (parameters self) l) as [v [event|e]].
  - by destruct (Handler.get_event_types h (self_obj self) !! event_name self).
  - by destruct (CmdEvent.caught e).
Qed.

Lemma ev_load_keeps_store caller w : handler (_ev_load caller w).2 = handler w.
Proof.
  unfold _ev_load. run.
  destruct (db_event w !! dbref caller) as [d|]; [|done].
  by destruct (dict_falsy (Some d)).
Qed.

Lemma ev_quit_keeps_store caller w : handler (_ev_quit caller w).2 = handler w.
Proof. reflexivity. Qed.

(** C1 (as amended).  When the add command opens the editor for an event
    type of the object's typeclass, it has already appended a binding to
    the store: one with empty code, written by the caller, not valid; the
    caller's session is this binding with its address, its number being
    the place it took.  What is typed in the editor reaches the store
    with a save and not before: opening the editor through the edit
    command, loading the buffer and quitting leave the store as it is. *)
Theorem add_event_stores_empty_binding :
  (forall self w h definition,
     handler w = Some h ->
     Handler.get_event_types h (self_obj self) !! event_name self = Some definition ->
     let old := default nil (Handler.get_events h (self_obj self) !! event_name self) in
     let b := Handler.new_binding "" (self_caller self) false (clock w) in
     let (r, w') := CmdEvent.add_event self w in
     r = Ok tt
     /\ stored w' (self_obj self) (event_name self) = Some (old ++ b :: nil)%list
     /\ db_event w' !! dbref (self_caller self)
        = Some (Handler.addressed b (self_obj self) (event_name self)
                  (Z.of_nat (length old)))
     /\ trace w' = (trace w ++
          Enter m_add_event
          :: Msg (self_caller self) definition.2
          :: CallAddEvent (self_obj self) (event_name self) "" (self_caller self) false
          :: EvEditor (self_caller self)
               ("Event " ++ event_name self ++ " of " ++ str_obj (self_obj self)) true
          :: nil)%list)
  /\ (forall self w, handler (CmdEvent.edit_event py self w).2 = handler w)
  /\ (forall caller w, handler (_ev_load caller w).2 = handler w)
  /\ (forall caller w, handler (_ev_quit caller w).2 = handler w).
Proof.
  split; [|auto using edit_event_keeps_store, ev_load_keeps_store, ev_quit_keeps_store].
  intros self w h definition Hh Hty. unfold CmdEvent.add_event. run.
  rewrite Hh, Hty. unfold handler_add_event. simpl. rewrite Hh.
  unfold Handler.add_event. rewrite Hty. simpl.
  split; [done|]. split.
  { unfold stored. simpl. apply get_events_set_bindings. }
  split; [apply lookup_insert_eq|].
  by rewrite <- !app_assoc.
Qed.

(** C1 (as stated) fails: the door has no binding, the caller enters
    "@event/add door = open", and when the command is over, the editor
    open and nothing saved, the store holds an empty binding of "open". *)
Lemma add_event_writes_before_save :
  let w := Demo.world (Some (Demo.handler_with ∅)) None Demo.nobody in
  let w' := (CmdEvent.func Py.ascii Demo.settings Demo.time_format
               (Demo.cmd ("add" :: nil) "door = open" "door" (Some "open")) w).2 in
  stored w Demo.door "open" = None
  /\ filter is_store_call (trace w')
     = CallAddEvent Demo.door "open" "" Demo.builder false :: nil
  /\ stored w' Demo.door "open"
     = Some (Handler.new_binding "" Demo.builder false 160 :: nil).
Proof. cbv zeta. repeat split; vm_compute; reflexivity. Qed.

End Editing.

(** ** Listing the bindings of one event *)

Section Listing.

Variable py : Builtins.
Variable time_format : Z -> Z -> string.

Lemma binding_row_cells validator now (k : nat) b :
  binding_wf b ->
  CmdEvent.binding_row time_format validator now (Z.of_nat k, b)
  = Ok (binding_cells time_format validator now k b).
Proof.
  intros [_ Hauthor Hupdated Hcreated].
  unfold CmdEvent.binding_row, binding_cells, author_cell, updated_cell.
  destruct Hauthor as [->|[o ->]]; simpl;
    destruct Hupdated as [->|[u ->]]; simpl;
    try (destruct Hcreated as [->|[c ->]]; simpl);
    by destruct validator.
Qed.

Lemma binding_rows_cells validator now l :
  Forall binding_wf l ->
  forall i : nat,
    result_map (CmdEvent.binding_row time_format validator now)
               (enumerate_from (Z.of_nat i) l)
    = Ok (imap (fun k => binding_cells time_format validator now (i + k)) l).
Proof.
  induction 1 as [|b l Hb Hl IH]; intros i; cbn [enumerate_from result_map].
  - done.
  - rewrite (binding_row_cells validator now i b Hb). cbn [result_bind].
    replace (Z.of_nat i + 1) with (Z.of_nat (S i)) by lia.
    rewrite (IH (S i)). cbn [result_bind imap]. rewrite Nat.add_0_r.
    do 2 f_equal. apply imap_ext. intros k x _. simpl. f_equal. lia.
Qed.

(** C5 (as amended).  A listing request names an event.  If the name is
    no key of the object's events, the caller is told that no such event
    has been set, and no table is made.  If it is a key, a table is sent
    that has one row per binding stored under the name, in their order and
    numbered from 1 (the store being within its data model): the row at
    place k is the row of the binding at place k, with its ordinal k + 1,
    its author, the time since its last change and, for a validator, its
    validity.  When the name is a key with an empty list, this is a table
    without rows. *)
Theorem list_events_of_name self w h :
  handler w = Some h ->
  store_wf h ->
  event_name self <> "" ->
  let events := Handler.get_events h (self_obj self) in
  (events !! event_name self = None ->
   CmdEvent.list_events py time_format self w
   = (Ok tt, with_trace w (trace w ++
        Enter m_list_events
        :: Msg (self_caller self)
             ("No event " ++ event_name self ++ " has been set on "
              ++ str_obj (self_obj self) ++ ".") :: nil)))
  /\ (forall created,
        events !! event_name self = Some created ->
        exists table_rows,
          length table_rows = length created
          /\ (forall (k : nat) row, table_rows !! k = Some row ->
                hd_error row = Some (CStr (Py.str_int (Z.of_nat k + 1))))
          /\ (forall (k : nat) b, created !! k = Some b ->
                table_rows !! k
                = Some (binding_cells time_format (is_validator self) (clock w) k b))
          /\ CmdEvent.list_events py time_format self w
             = (Ok tt, with_trace w (trace w ++
                  Enter m_list_events
                  :: MsgTable (self_caller self)
                       {| header := if is_validator self
                                    then "Number" :: "Author" :: "Updated" :: "Valid" :: nil
                                    else "Number" :: "Author" :: "Updated" :: nil;
                          width := 78;
                          rows := table_rows;
                          right_aligned := 0%nat :: nil |} :: nil))).
Proof.
  intros Hh Hstore Hname events.
  assert (truthy (VStr (event_name self)) = true) as Htruthy.
  { simpl. apply negb_true_iff. by apply String.eqb_neq. }
  split.
  - intros Hnone. unfold CmdEvent.list_events. run.
    rewrite Hh. simpl in Htruthy. rewrite Htruthy. fold events. rewrite Hnone.
    unfold with_trace. simpl. by rewrite <- app_assoc.
  - intros created Hsome.
    pose proof (get_events_wf h (self_obj self) Hstore _ _ Hsome) as Hwf.
    pose proof (binding_rows_cells (is_validator self) (clock w) created Hwf 0)
      as Hrows.
    exists (imap (fun k => binding_cells time_format (is_validator self) (clock w) k)
                 created).
    split; [apply length_imap|].
    split.
    { intros k row. rewrite list_lookup_imap.
      destruct (created !! k) as [b|]; [|done]. by intros [= <-]. }
    split.
    { intros k b Hb. by rewrite list_lookup_imap, Hb. }
    unfold CmdEvent.list_events. run.
    rewrite Hh. simpl in Htruthy. rewrite Htruthy. fold events. rewrite Hsome.
    unfold enumerate. change (clock (with_trace w _)) with (clock w).
    change 0 with (Z.of_nat 0). rewrite Hrows.
    unfold with_trace. simpl. by rewrite <- app_assoc.
Qed.

End Listing.

(** C5 (as stated) fails: "open" is a key of the door's events with an
    empty list, the caller enters "@event door = open", and the answer is
    a table without rows, not the message that no such event has been
    set. *)
Lemma list_events_empty_list_renders_table :
  let w := Demo.world (Some (Demo.handler_with {[ "open" := nil ]})) None Demo.nobody in
  stored w Demo.door "open" = Some nil
  /\ CmdEvent.func Py.ascii Demo.settings Demo.time_format
       (Demo.cmd nil "door = open" "door" (Some "open")) w
     = (Ok tt, with_trace w
          (Enter m_list_events
           :: MsgTable Demo.builder
                {| header := "Number" :: "Author" :: "Updated" :: nil;
                   width := 78; rows := nil; right_aligned := 0%nat :: nil |}
           :: nil)).
Proof. vm_compute. split; reflexivity. Qed.

(** ** Listing the event types *)

Section Summary.

Variable py : Builtins.
Variable time_format : Z -> Z -> string.

Lemma splitlines_first_line text :
  text <> "" ->
  splitlines py text = first_line py text :: tail (splitlines py text).
Proof.
  intros Htext. unfold first_line.
  destruct (splitlines py text) eqn:Hl; [|done].
  by apply splitlines_nil in Hl.
Qed.

Lemma sum_lines_total l :
  Forall has_code l -> sum_lines py l = Ok (total_lines py l).
Proof.
  induction 1 as [|b l [code Hb] Hl IH]; [done|].
  simpl. unfold code_lines, lines_of. rewrite Hb. simpl. by rewrite IH.
Qed.

Lemma summary_row_expected events item :
  Forall has_code (default nil (events !! item.1)) ->
  item.2.2 <> "" ->
  summary_row py events item = Ok (expected_row py events item).
Proof.
  intros Hcode Hdesc. destruct item as [name infos]. unfold summary_row, expected_row.
  simpl in *. rewrite (sum_lines_total _ Hcode). simpl.
  by rewrite (splitlines_first_line _ Hdesc).
Qed.

Lemma summary_rows_expected events items :
  Forall (fun item => Forall has_code (default nil (events !! item.1))
                      /\ item.2.2 <> "") items ->
  result_map (summary_row py events) items = Ok (expected_row py events <$> items).
Proof.
  induction 1 as [|item items [Hcode Hdesc] _ IH]; [done|].
  cbn [result_map]. rewrite (summary_row_expected _ _ Hcode Hdesc).
  cbn [result_bind]. by rewrite IH.
Qed.

Global Instance item_le_transitive : Transitive item_le.
Proof. intros a b c. unfold item_le. apply transitivity. Qed.

Global Instance item_le_total : Total item_le.
Proof. intros a b. unfold item_le. apply total, _. Qed.

Lemma sorted_items_perm (types : gmap string EventType) :
  sorted_items types ≡ₚ map_to_list types.
Proof. apply merge_sort_Permutation. Qed.

Lemma sorted_items_sorted (types : gmap string EventType) :
  StronglySorted item_le (sorted_items types).
Proof. apply StronglySorted_merge_sort; apply _. Qed.

Lemma sorted_items_nodup (types : gmap string EventType) :
  NoDup (sorted_items types).*1.
Proof. rewrite sorted_items_perm. apply NoDup_fst_map_to_list. Qed.

(** C7 (as amended).  A listing request names no event, every binding
    stored for the object carries its code as text, and every event type
    of the object's typeclass has a description that is not empty.  Then
    the table sent has one row per event type: the rows follow the types
    in ascending order of their names, no name twice, strings being
    compared by the codes of their characters; a row holds the name, the
    number of bindings stored under it (0 if there are none), the sum of
    the numbers of lines of their codes, and the first line of the
    description, lines being told apart as the interpreter's [splitlines]
    does. *)
Theorem list_events_summary self w h :
  handler w = Some h ->
  event_name self = "" ->
  let events := Handler.get_events h (self_obj self) in
  let types := Handler.get_event_types h (self_obj self) in
  events_have_code events ->
  types_described types ->
  exists items,
    items ≡ₚ map_to_list types
    /\ StronglySorted item_le items
    /\ NoDup items.*1
    /\ CmdEvent.list_events py time_format self w
       = (Ok tt, with_trace w (trace w ++
            Enter m_list_events
            :: MsgTable (self_caller self)
                 {| header := "Event name" :: "Number" :: "Lines" :: "Description" :: nil;
                    width := 78;
                    rows := expected_row py events <$> items;
                    right_aligned := 1%nat :: 2%nat :: nil |} :: nil)).
Proof.
  intros Hh Hname events types Hcode Hdesc.
  exists (sorted_items types).
  split; [apply sorted_items_perm|]. split; [apply sorted_items_sorted|].
  split; [apply sorted_items_nodup|].
  unfold CmdEvent.list_events. run. rewrite Hh, Hname. simpl.
  fold events types.
  rewrite summary_rows_expected.
  { unfold with_trace. simpl. by rewrite <- app_assoc. }
  apply Forall_forall. intros [name infos] Hin.
  rewrite sorted_items_perm in Hin. apply elem_of_map_to_list in Hin.
  split; [|by apply (Hdesc name)]. simpl.
  destruct (events !! name) as [l|] eqn:Hl; [|by constructor].
  apply Forall_forall. intros b Hb. by apply (Hcode name l).
Qed.

End Summary.

(** C7 (as stated) fails: the one event type of exits has the empty
    description, the caller enters "@event door", and the command ends in
    an [IndexError]: there is no first line to show, and no table. *)
Lemma list_events_empty_description_raises :
  let w := Demo.world (Some (Demo.handler_of {[ "open" := (nil, "") ]} ∅))
             None Demo.nobody in
  CmdEvent.func Py.ascii Demo.settings Demo.time_format (Demo.cmd nil "door" "door" None) w
  = (Raise IndexError, with_trace w (Enter m_list_events :: nil)).
Proof. vm_compute. reflexivity. Qed.

(** ** What a run can add to the trace *)

Section Emits.

Context {A : Type} (P : Effect -> Prop).

Lemma emits_silent (m : M A) :
  (forall w, trace (m w).2 = trace w) -> emits P m.
Proof. intros H w. exists nil. by rewrite H, app_nil_r. Qed.

Lemma emits_ret (a : A) : emits P (ret a).
Proof. by apply emits_silent. Qed.

Lemma emits_raise e : emits P (@raise A e).
Proof. by apply emits_silent. Qed.

Lemma emits_lift (r : result A) : emits P (lift r).
Proof. by apply emits_silent. Qed.

Lemma emits_at_bind {B} (m : M B) (k : B -> M A) w :
  emits_at P m w ->
  (forall b w', m w = (Ok b, w') -> emits_at P (k b) w') ->
  emits_at P (bind m k) w.
Proof.
  intros (es & Hes & HP) Hk. unfold emits_at, bind.
  destruct (m w) as [[b|e] w'] eqn:Hm; simpl in *.
  - destruct (Hk b w' eq_refl) as (es' & Hes' & HP').
    exists (es ++ es')%list. split; [|by apply Forall_app].
    by rewrite Hes', Hes, app_assoc.
  - by exists es.
Qed.

Lemma emits_bind {B} (m : M B) (k : B -> M A) :
  emits P m -> (forall b, emits P (k b)) -> emits P (bind m k).
Proof. intros Hm Hk w. apply emits_at_bind; [apply Hm|]. intros b w' _. apply Hk. Qed.

End Emits.

Lemma emits_emit P e : P e -> emits P (emit e).
Proof. intros He w. exists (e :: nil). split; [done|]. by constructor. Qed.

Lemma emits_self_handler P : emits P self_handler.
Proof. apply emits_silent. intros w. unfold self_handler. by destruct (handler w). Qed.

Lemma emits_handler_add_event P obj name code author valid :
  P (CallAddEvent obj name code author valid) ->
  emits P (handler_add_event obj name code author valid).
Proof.
  intros He w. exists (CallAddEvent obj name code author valid :: nil).
  split; [|by constructor]. unfold handler_add_event. simpl.
  destruct (handler w) as [h|]; [|done].
  by destruct (Handler.add_event _ _ _ _ _ _ _) as [[??]|].
Qed.

Ltac emits_step :=
  match goal with
  | |- emits _ (bind _ _) => apply emits_bind; [|intros ?]
  | |- emits _ (ret _) => apply emits_ret
  | |- emits _ (raise _) => apply emits_raise
  | |- emits _ (lift _) => apply emits_lift
  | |- emits _ self_handler => apply emits_self_handler
  | |- emits _ (handler_add_event _ _ _ _ _) =>
      apply emits_handler_add_event; discriminate
  | |- emits _ (emit _) => apply emits_emit; discriminate
  | |- emits _ (msg _ _) => apply emits_emit; discriminate
  | |- emits _ (msg_table _ _) => apply emits_emit; discriminate
  | |- emits _ (CmdEvent.open_editor _) => apply emits_emit; discriminate
  | |- emits _ datetime_now => by apply emits_silent
  | |- emits _ (db_set_event _ _) => by apply emits_silent
  | |- emits _ (caller_search _ _) => by apply emits_silent
  | |- emits _ (match ?x with _ => _ end) => destruct x
  end.

Lemma list_events_not_accept py time_format self :
  emits not_accept (CmdEvent.list_events py time_format self).
Proof. unfold CmdEvent.list_events, not_accept. cbv zeta. repeat emits_step. Qed.

Lemma add_event_not_accept self : emits not_accept (CmdEvent.add_event self).
Proof. unfold CmdEvent.add_event, not_accept. cbv zeta. repeat emits_step. Qed.

Lemma edit_event_not_accept py self : emits not_accept (CmdEvent.edit_event py self).
Proof. unfold CmdEvent.edit_event, not_accept. cbv zeta. repeat emits_step. Qed.

Lemma del_event_not_accept caller : emits not_accept (CmdEvent.del_event caller).
Proof. unfold CmdEvent.del_event, not_accept. cbv zeta. repeat emits_step. Qed.

(** ** What a computation leaves alone *)

Section Preserves.

Context {A X : Type} (f : World -> X).

Lemma preserves_pure (m : M A) :
  (forall w, (m w).2 = w) -> preserves f m.
Proof. intros H w. by rewrite H. Qed.

Lemma preserves_bind {B} (m : M B) (k : B -> M A) :
  preserves f m -> (forall b, preserves f (k b)) -> preserves f (bind m k).
Proof.
  intros Hm Hk w. unfold bind.
  specialize (Hm w). destruct (m w) as [[b|e] w']; simpl in *.
  - by rewrite Hk.
  - done.
Qed.

End Preserves.

Lemma preserves_self_handler {X} (f : World -> X) : preserves f self_handler.
Proof. intros w. unfold self_handler. by destruct (handler w). Qed.

Ltac preserves_step :=
  match goal with
  | |- preserves _ (bind _ _) => apply preserves_bind; [|intros ?]
  | |- preserves _ self_handler => apply preserves_self_handler
  | |- preserves _ (match ?x with _ => _ end) => destruct x
  | |- preserves _ _ => by intros ?
  end.

Lemma list_events_preserves_handler py time_format self :
  preserves handler (CmdEvent.list_events py time_format self).
Proof. unfold CmdEvent.list_events. cbv zeta. repeat preserves_step. Qed.

Lemma list_events_preserves_db_event py time_format self :
  preserves db_event (CmdEvent.list_events py time_format self).
Proof. unfold CmdEvent.list_events. cbv zeta. repeat preserves_step. Qed.

Lemma edit_event_preserves_handler py self :
  preserves handler (CmdEvent.edit_event py self).
Proof. unfold CmdEvent.edit_event. cbv zeta. repeat preserves_step. Qed.

Lemma with_obj_preserves {X} (f : World -> X) caller obj (method : Obj -> M unit) :
  (forall w t, f (with_trace w t) = f w) ->
  (forall o, preserves f (method o)) ->
  preserves f (CmdEvent.with_obj caller obj method).
Proof.
  intros Hf Hm. unfold CmdEvent.with_obj. destruct obj; [apply Hm|].
  intros w. apply Hf.
Qed.

(** ** The name a run works with *)

Ltac names_step :=
  match goal with
  | |- emits _ (bind _ _) => apply emits_bind; [|intros ?]
  | |- emits _ (ret _) => apply emits_ret
  | |- emits _ (raise _) => apply emits_raise
  | |- emits _ (lift _) => apply emits_lift
  | |- emits _ self_handler => apply emits_self_handler
  | |- emits _ (handler_add_event _ _ _ _ _) =>
      by apply emits_handler_add_event
  | |- emits _ (CmdEvent.open_editor _) => apply emits_emit; by eexists
  | |- emits _ (emit _) => by apply emits_emit
  | |- emits _ (msg _ _) => by apply emits_emit
  | |- emits _ (msg_table _ _) => by apply emits_emit
  | |- emits _ datetime_now => by apply emits_silent
  | |- emits _ (db_set_event _ _) => by apply emits_silent
  | |- emits _ (match ?x with _ => _ end) => destruct x
  end.

Lemma list_events_names py time_format self name :
  emits (names name) (CmdEvent.list_events py time_format self).
Proof. unfold CmdEvent.list_events. cbv zeta. repeat names_step. Qed.

Lemma add_event_names self :
  emits (names (event_name self)) (CmdEvent.add_event self).
Proof. unfold CmdEvent.add_event. cbv zeta. repeat names_step. Qed.

Lemma edit_event_names py self :
  emits (names (event_name self)) (CmdEvent.edit_event py self).
Proof. unfold CmdEvent.edit_event. cbv zeta. repeat names_step. Qed.

Lemma with_obj_names name caller obj (method : Obj -> M unit) :
  (forall o, emits (names name) (method o)) ->
  emits (names name) (CmdEvent.with_obj caller obj method).
Proof.
  intros Hm. unfold CmdEvent.with_obj. destruct obj; [apply Hm|].
  by apply emits_emit.
Qed.

Lemma preserves_records {A} name (m : M A) :
  preserves db_event m -> records name m.
Proof. intros Hm w k event. rewrite Hm. by left. Qed.

Lemma records_bind {A B} name (m : M B) (k : B -> M A) :
  preserves db_event m -> (forall b, records name (k b)) ->
  records name (bind m k).
Proof.
  intros Hm Hk w i event. unfold bind. specialize (Hm w).
  destruct (m w) as [[b|e] w']; simpl in *.
  - intros H. destruct (Hk b w' i event H) as [H'|H']; [left|by right].
    by rewrite <- Hm.
  - rewrite Hm. by left.
Qed.

Lemma add_event_records self :
  records (event_name self) (CmdEvent.add_event self).
Proof.
  intros w k event. unfold CmdEvent.add_event. run.
  destruct (handler w) as [h|] eqn:Hh; simpl; [|by left].
  destruct (Handler.get_event_types h (self_obj self) !! event_name self)
    as [definition|] eqn:Hty; simpl; [|by left].
  unfold handler_add_event. simpl. rewrite Hh.
  unfold Handler.add_event. rewrite Hty. simpl.
  destruct (decide (k = dbref (self_caller self))) as [->|Hk].
  - rewrite lookup_insert_eq. intros [= <-]. right.
    unfold Handler.addressed. rewrite lookup_insert_ne by done.
    by rewrite lookup_insert_eq.
  - rewrite lookup_insert_ne by done. by left.
Qed.

Lemma edit_event_records py self :
  records (event_name self) (CmdEvent.edit_event py self).
Proof.
  intros w k event. unfold CmdEvent.edit_event. run.
  destruct (handler w) as [h|] eqn:Hh; simpl; [|by left].
  destruct (Handler.get_events h (self_obj self) !! event_name self)
    as [bindings|]; simpl; [|by left].
  destruct (CmdEvent.try_parameters py (parameters self) bindings)
    as [number [found|e]]; simpl.
  - destruct (Handler.get_event_types h (self_obj self) !! event_name self)
      as [definition|]; simpl; [|by left].
    destruct (decide (k = dbref (self_caller self))) as [->|Hk].
    + rewrite lookup_insert_eq. intros [= <-]. right.
      rewrite lookup_insert_ne by done. by rewrite lookup_insert_eq.
    + rewrite lookup_insert_ne by done. by left.
  - destruct (CmdEvent.caught e); simpl; by left.
Qed.

Lemma with_obj_records name caller obj (method : Obj -> M unit) :
  (forall o, records name (method o)) ->
  records name (CmdEvent.with_obj caller obj method).
Proof.
  intros Hm. unfold CmdEvent.with_obj. destruct obj; [apply Hm|].
  by apply preserves_records.
Qed.

(** ** The dispatcher *)

Section Dispatch.

Variable py : Builtins.
Variable settings : Settings.
Variable time_format : Z -> Z -> string.

Lemma with_obj_not_accept caller obj (method : Obj -> M unit) :
  (forall o, emits not_accept (method o)) ->
  emits not_accept (CmdEvent.with_obj caller obj method).
Proof.
  intros Hm. unfold CmdEvent.with_obj. destruct obj; [apply Hm|].
  apply emits_emit. discriminate.
Qed.

(** C9.  The caller does not pass the validator lock.  Whatever the
    command line, the run does not enter [accept_event]; and with the
    accept switch, once the handler is found running and the object
    look-up (if the command has arguments) has found something, the run
    consists of the message about invalid switches. *)
Theorem accept_needs_validator cmd w :
  check_lockstring w (caller cmd) (validator_lock settings) = false ->
  (exists es,
     trace (CmdEvent.func py settings time_format cmd w).2 = (trace w ++ es)%list
     /\ Enter m_accept_event ∉ es)
  /\ (hd "" (switches cmd) = "accept" ->
      is_Some (handler w) ->
      strip py (args cmd) = "" \/ is_Some (search w (caller cmd) (lhs cmd)) ->
      CmdEvent.func py settings time_format cmd w
      = (Ok tt, with_trace w (trace w ++
           Msg (caller cmd)
             "Mutually exclusive or invalid switches were used, cannot proceed."
           :: nil))).
Proof.
  intros Hperm. split.
  - enough (emits_at not_accept (CmdEvent.func py settings time_format cmd) w)
      as (es & Hes & HP).
    { exists es. split; [done|]. intros Hin.
      by apply (proj1 (Forall_forall _ _) HP _ Hin). }
    unfold CmdEvent.func. apply emits_at_bind; [by apply emits_silent|].
    intros validator w1 [= <- <-]. fold (validator_lock settings). rewrite Hperm.
    apply emits_at_bind; [by apply emits_silent|].
    intros running w1 [= <- <-].
    destruct (Py.partition_space (default "" (rhs cmd))) as [[name sep] params].
    destruct (handler w) as [h|]; [|apply emits_emit; discriminate].
    match goal with
    | |- emits_at ?P ?m w => cut (emits P m); [intros Hm; apply Hm|]
    end.
    apply emits_bind.
    { destruct (negb _); by apply emits_silent. }
    intros obj. rewrite andb_false_r.
    repeat match goal with
           | |- emits _ (if ?b then _ else _) => destruct b
           end;
      first [ apply emits_ret
            | apply emits_emit; discriminate
            | apply with_obj_not_accept; intros o ].
    + apply list_events_not_accept.
    + apply add_event_not_accept.
    + apply edit_event_not_accept.
    + apply del_event_not_accept.
  - intros Hswitch [h Hh] Hobj. unfold CmdEvent.func. run.
    fold (validator_lock settings). rewrite Hperm, Hh, Hswitch.
    destruct (Py.partition_space (default "" (rhs cmd))) as [[name sep] params].
    destruct (String.eqb (strip py (args cmd)) "") eqn:Hargs; simpl; [done|].
    destruct Hobj as [Hobj|[o Hobj]].
    + apply String.eqb_neq in Hargs. done.
    + by rewrite Hobj.
Qed.

(** What [func] does once the handler is found running and the object
    named before the equal sign is found: the method of the first switch
    runs on a [self] that holds the lower-case form of the event name
    and the parameters. *)
Lemma func_found cmd w h o :
  handler w = Some h ->
  strip py (args cmd) <> "" ->
  search w (caller cmd) (lhs cmd) = Some o ->
  let validator := check_lockstring w (caller cmd) (validator_lock settings) in
  let self :=
    {| self_caller := caller cmd; self_obj := o;
       event_name := lower py (rhs_event_name (default "" (rhs cmd)));
       parameters := rhs_parameters (default "" (rhs cmd));
       is_validator := validator |} in
  let switch := hd "" (switches cmd) in
  CmdEvent.func py settings time_format cmd w
  = (if String.eqb switch "" then CmdEvent.list_events py time_format self
     else if String.eqb switch "add" then CmdEvent.add_event self
     else if String.eqb switch "edit" then CmdEvent.edit_event py self
     else if String.eqb switch "del" then CmdEvent.del_event (caller cmd)
     else if String.eqb switch "accept" && validator
          then CmdEvent.accept_event (caller cmd)
     else msg (caller cmd)
            "Mutually exclusive or invalid switches were used, cannot proceed.") w.
Proof.
  intros Hh Hargs%String.eqb_neq Hobj. cbv zeta.
  unfold CmdEvent.func, rhs_event_name, rhs_parameters.
  destruct (Py.partition_space (default "" (rhs cmd))) as [[name sep] params].
  cbv zeta. rewrite Hargs.
  unfold bind at 1, locks_check_lockstring at 1. cbn [fst snd].
  unfold bind at 1, get_event_handler at 1. cbn [fst snd]. rewrite Hh.
  unfold bind at 1, caller_search at 1. cbn [fst snd negb]. rewrite Hobj.
  fold (validator_lock settings).
  replace (bool_decide (is_Some (Some o))) with true
    by (symmetry; apply bool_decide_eq_true; by eexists).
  cbn [negb andb CmdEvent.with_obj]. 
  by repeat match goal with |- context [if ?b then _ else _] => destruct b end.
Qed.

(** C10.  [func] puts the event name it reads from the right-hand side
    in lower case before anything uses it, and everything after works
    with that form.  Once the handler is found running and the object is
    found, the run is the run of [list_events], [add_event] or
    [edit_event] (as the first switch says) on a [self] whose event name
    is the lower-case form: the look-ups of these methods in the event
    types and in the object's events are made with it.  Whatever the
    command line, every call of the store and every editor the run opens
    names the lower-case form, and every session the run leaves that was
    not there before records it.  Hence two right-hand sides with the
    same parameters, whose event names become equal when put in lower
    case, give the same run: they list, add to and edit the same
    bindings. *)
Theorem func_event_name_case cmd w :
  let name := lower py (rhs_event_name (default "" (rhs cmd))) in
  let self o :=
    {| self_caller := caller cmd; self_obj := o; event_name := name;
       parameters := rhs_parameters (default "" (rhs cmd));
       is_validator := check_lockstring w (caller cmd) (validator_lock settings) |} in
  (forall h o,
     handler w = Some h ->
     strip py (args cmd) <> "" ->
     search w (caller cmd) (lhs cmd) = Some o ->
     (hd "" (switches cmd) = "" ->
      CmdEvent.func py settings time_format cmd w
      = CmdEvent.list_events py time_format (self o) w)
     /\ (hd "" (switches cmd) = "add" ->
         CmdEvent.func py settings time_format cmd w
         = CmdEvent.add_event (self o) w)
     /\ (hd "" (switches cmd) = "edit" ->
         CmdEvent.func py settings time_format cmd w
         = CmdEvent.edit_event py (self o) w))
  /\ (exists es,
        trace (CmdEvent.func py settings time_format cmd w).2 = (trace w ++ es)%list
        /\ Forall (names name) es)
  /\ (forall k event,
        db_event (CmdEvent.func py settings time_format cmd w).2 !! k = Some event ->
        db_event w !! k = Some event \/ event !! "name" = Some (VStr name))
  /\ (forall r,
        lower py (rhs_event_name r) = name ->
        rhs_parameters r = rhs_parameters (default "" (rhs cmd)) ->
        CmdEvent.func py settings time_format (with_rhs cmd (Some r)) w
        = CmdEvent.func py settings time_format cmd w).
Proof.
  intros name self. split; [|split; [|split]].
  - intros h o Hh Hargs Hobj.
    pose proof (func_found cmd w h o Hh Hargs Hobj) as Hrun. cbv zeta in Hrun.
    repeat split; intros Hswitch; rewrite Hrun, Hswitch; reflexivity.
  - revert w self. 
    change (emits (names name) (CmdEvent.func py settings time_format cmd)).
    subst name. unfold CmdEvent.func, rhs_event_name.
    destruct (Py.partition_space (default "" (rhs cmd))) as [[raw sep] params].
    cbv zeta. cbn [fst].
    apply emits_bind; [by apply emits_silent|]. intros validator.
    apply emits_bind; [by apply emits_silent|].
    intros [h|]; [|by apply emits_emit].
    apply emits_bind.
    { destruct (negb _); by apply emits_silent. }
    intros obj.
    repeat match goal with
           | |- emits _ (if ?b then _ else _) => destruct b
           end;
      first [ apply emits_ret
            | by apply emits_emit
            | apply with_obj_names; intros o
            | unfold CmdEvent.accept_event; repeat names_step ].
    + apply list_events_names.
    + apply (add_event_names {| event_name := lower py raw |}).
    + apply (edit_event_names py {| event_name := lower py raw |}).
    + unfold CmdEvent.del_event; repeat names_step.
  - revert w self.
    change (records name (CmdEvent.func py settings time_format cmd)).
    subst name. unfold CmdEvent.func, rhs_event_name.
    destruct (Py.partition_space (default "" (rhs cmd))) as [[raw sep] params].
    cbv zeta. cbn [fst].
    apply records_bind; [by intros ?|]. intros validator.
    apply records_bind; [by intros ?|].
    intros [h|]; [|by apply preserves_records].
    apply records_bind.
    { destruct (negb _); by intros ?. }
    intros obj.
    repeat match goal with
           | |- records _ (if ?b then _ else _) => destruct b
           end;
      try (by apply preserves_records);
      apply with_obj_records; intros o.
    + apply preserves_records, list_events_preserves_db_event.
    + apply (add_event_records {| event_name := lower py raw |}).
    + apply (edit_event_records py {| event_name := lower py raw |}).
    + by apply preserves_records.
  - intros r. subst name.
    unfold rhs_event_name, rhs_parameters, CmdEvent.func. simpl.
    destruct (Py.partition_space r) as [[n1 s1] p1].
    destruct (Py.partition_space (default "" (rhs cmd))) as [[n2 s2] p2]. simpl.
    by intros -> ->.
Qed.

End Dispatch.

(** ** The properties on the small game *)

Lemma types_described_by_list (types : gmap string EventType) :
  Forall (fun item => item.2.2 <> "") (map_to_list types) ->
  types_described types.
Proof.
  intros Hall name infos Hl. apply elem_of_map_to_list in Hl.
  apply (proj1 (Forall_forall _ _) Hall _ Hl).
Qed.

Lemma one_binding_wf : store_wf Demo.one_binding.
Proof.
  intros id evs. unfold Demo.one_binding, Demo.handler_with, Demo.handler_of. simpl.
  intros [_ <-]%lookup_singleton_Some name l [_ <-]%lookup_singleton_Some.
  constructor; [apply new_binding_wf|constructor].
Qed.

(** In a session without a number the save fails and the store keeps the
    one binding it had. *)
Lemma ev_save_incomplete_fails_witness :
  Demo.session_without_number !! "number" = None
  /\ let (r, w') := _ev_save Demo.settings Demo.builder "say hello"
                      Demo.editing_without_number in
     r = Ok false
     /\ trace w' = (trace Demo.editing_without_number
                    ++ Msg Demo.builder "Couldn't save this event." :: nil)%list
     /\ handler w' = handler Demo.editing_without_number
     /\ db_event w' = db_event Demo.editing_without_number.
Proof.
  split; [reflexivity|].
  apply (ev_save_incomplete_fails Demo.settings Demo.builder "say hello"
           Demo.editing_without_number).
  right. right. exists Demo.session_without_number, "number".
  split; [reflexivity|]. split; [|reflexivity].
  unfold session_keys. apply list_elem_of_In. simpl. tauto.
Defined.

(** C2 (as stated) fails: the session holds the door and the name "open"
    and no number, the handler is running, and the save calls nothing. *)
Lemma ev_save_new_session_adds_nothing : ~ save_adds_new_binding Demo.settings.
Proof.
  intros Hadd.
  destruct (Hadd Demo.builder "say hello" Demo.editing_without_number
              Demo.session_without_number)
    as (obj & name & code & author & valid & Hin).
  - by eexists.
  - reflexivity.
  - split; [by eexists|]. split; [by eexists|]. split; [by eexists|]. reflexivity.
  - assert (trace (_ev_save Demo.settings Demo.builder "say hello"
                     Demo.editing_without_number).2
            = Msg Demo.builder "Couldn't save this event." :: nil) as Ht
      by (vm_compute; reflexivity).
    rewrite Ht in Hin. apply list_elem_of_singleton in Hin. discriminate Hin.
Qed.

Lemma ev_save_only_edits_witness :
  session_complete (Demo.editing Demo.nobody) Demo.builder Demo.session
  /\ trace (_ev_save Demo.settings Demo.builder "say hello"
              (Demo.editing Demo.nobody)).2
     = CallEditEvent (VObj Demo.door) (VStr "open") (VInt 0) "say hello"
         Demo.builder false :: nil.
Proof.
  assert (session_complete (Demo.editing Demo.nobody) Demo.builder Demo.session)
    as Hc.
  { split; [by eexists|]. split; [reflexivity|].
    intros k Hk. apply list_elem_of_In in Hk. simpl in Hk.
    destruct Hk as [<-|[<-|[<-|[<-|[]]]]]; by eexists. }
  split; [exact Hc|].
  exact (proj1 (ev_save_only_edits Demo.settings Demo.builder "say hello"
                  (Demo.editing Demo.nobody)) Demo.session Hc).
Defined.

(** The same binding saved by an author who must be validated and by one
    who need not: the flag follows the permission, not the binding. *)
Lemma ev_save_valid_is_permission_witness :
  let w := Demo.editing Demo.nobody in
  let w' := (_ev_save Demo.settings Demo.builder "say hello" w).2 in
  _ev_save Demo.settings Demo.builder "say hello" w = (Ok true, w')
  /\ exists d o n i,
       db_event w !! dbref Demo.builder = Some d
       /\ d !! "obj" = Some (VObj o) /\ d !! "name" = Some (VStr n)
       /\ d !! "number" = Some (VInt i)
       /\ trace w' = (trace w ++
            CallEditEvent (VObj o) (VStr n) (VInt i) "say hello" Demo.builder
              false :: nil)%list
       /\ exists l b,
            stored w' o n = Some l /\ l !! Z.to_nat i = Some b
            /\ b !! "valid" = Some (VBool false)
            /\ b !! "code" = Some (VStr "say hello").
Proof.
  intros w w'. split; [vm_compute; reflexivity|].
  apply (ev_save_valid_is_permission Demo.settings Demo.builder "say hello" w w').
  vm_compute. reflexivity.
Defined.

Lemma edit_event_orphaned_raises_witness :
  let w := Demo.world (Some Demo.orphaned) None Demo.nobody in
  Handler.get_event_types Demo.orphaned Demo.door !! "knock" = None
  /\ CmdEvent.edit_event Py.ascii Demo.self_knock w
     = (Raise KeyError, with_trace w (trace w ++ Enter m_edit_event :: nil)).
Proof.
  intros w. split; [vm_compute; reflexivity|].
  apply (edit_event_orphaned_raises Py.ascii Demo.self_knock w Demo.orphaned
           (Demo.binding "pass" true :: nil) 1).
  - reflexivity.
  - vm_compute. reflexivity.
  - vm_compute. reflexivity.
  - simpl. lia.
  - vm_compute. reflexivity.
Defined.

Lemma add_event_stores_empty_binding_witness :
  let w := Demo.world (Some Demo.one_binding) None Demo.nobody in
  let (r, w') := CmdEvent.add_event (Demo.self_open "") w in
  r = Ok tt
  /\ stored w' Demo.door "open"
     = Some (Demo.binding "pass" true
             :: Handler.new_binding "" Demo.builder false 160 :: nil)
  /\ db_event w' !! dbref Demo.builder
     = Some (Handler.addressed (Handler.new_binding "" Demo.builder false 160)
               Demo.door "open" 1).
Proof.
  intros w.
  pose proof (proj1 (add_event_stores_empty_binding Py.ascii) (Demo.self_open "") w
                Demo.one_binding
                ("character" :: nil,
                 "When the door is opened." ++ String "010" "More.")
                eq_refl) as H.
  destruct (CmdEvent.add_event (Demo.self_open "") w) as [r w'].
  destruct H as (Hr & Hs & Hd & _); [vm_compute; reflexivity|].
  split; [exact Hr|]. split; [exact Hs|exact Hd].
Defined.

Lemma list_events_of_name_witness :
  let w := Demo.world (Some Demo.one_binding) None Demo.nobody in
  exists table_rows,
    length table_rows = 1%nat
    /\ table_rows !! 0%nat
       = Some (binding_cells Demo.time_format false (clock w) 0
                 (Demo.binding "pass" true))
    /\ CmdEvent.list_events Py.ascii Demo.time_format (Demo.self_open "") w
       = (Ok tt, with_trace w
            (Enter m_list_events
             :: MsgTable Demo.builder
                  {| header := "Number" :: "Author" :: "Updated" :: nil;
                     width := 78; rows := table_rows;
                     right_aligned := 0%nat :: nil |} :: nil)).
Proof.
  intros w.
  destruct (proj2 (list_events_of_name Py.ascii Demo.time_format (Demo.self_open "") w
                     Demo.one_binding eq_refl one_binding_wf ltac:(discriminate))
              (Demo.binding "pass" true :: nil))
    as (table_rows & Hlen & _ & Hrows & Hrun).
  - vm_compute. reflexivity.
  - exists table_rows. split; [exact Hlen|].
    split; [exact (Hrows 0%nat _ eq_refl)|exact Hrun].
Defined.

Lemma list_events_summary_witness :
  let w := Demo.world (Some Demo.one_binding) None Demo.nobody in
  let self := {| self_caller := Demo.builder; self_obj := Demo.door;
                 event_name := ""; parameters := ""; is_validator := false |} in
  exists items,
    items ≡ₚ map_to_list Demo.exit_types
    /\ StronglySorted item_le items
    /\ NoDup items.*1
    /\ CmdEvent.list_events Py.ascii Demo.time_format self w
       = (Ok tt, with_trace w
            (Enter m_list_events
             :: MsgTable Demo.builder
                  {| header := "Event name" :: "Number" :: "Lines" :: "Description" :: nil;
                     width := 78;
                     rows := expected_row Py.ascii (Handler.get_events Demo.one_binding Demo.door)
                             <$> items;
                     right_aligned := 1%nat :: 2%nat :: nil |} :: nil)).
Proof.
  intros w self.
  destruct (list_events_summary Py.ascii Demo.time_format self w Demo.one_binding
              eq_refl eq_refl)
    as (items & Hperm & Hsorted & Hnodup & Hrun).
  - exact (events_wf_have_code _ (get_events_wf _ Demo.door one_binding_wf)).
  - apply types_described_by_list. vm_compute.
    repeat constructor; discriminate.
  - exists items. split; [|split; [exact Hsorted|split; [exact Hnodup|exact Hrun]]].
    etransitivity; [exact Hperm|]. done.
Defined.

Lemma accept_needs_validator_witness :
  let w := Demo.world (Some Demo.one_binding) None Demo.nobody in
  let cmd := Demo.cmd ("accept" :: nil) "" "" None in
  check_lockstring w (caller cmd) (validator_lock Demo.settings) = false
  /\ CmdEvent.func Py.ascii Demo.settings Demo.time_format cmd w
     = (Ok tt, with_trace w (trace w ++
          Msg Demo.builder
            "Mutually exclusive or invalid switches were used, cannot proceed."
          :: nil)).
Proof.
  intros w cmd. split; [reflexivity|].
  apply (accept_needs_validator Py.ascii Demo.settings Demo.time_format cmd w eq_refl).
  - reflexivity.
  - by eexists.
  - left. reflexivity.
Defined.

Lemma func_event_name_case_witness :
  let w := Demo.world (Some Demo.one_binding) None Demo.nobody in
  let cmd := Demo.cmd ("edit" :: nil) "door = Open 1" "door" (Some "Open 1") in
  CmdEvent.func Py.ascii Demo.settings Demo.time_format cmd w
  = CmdEvent.edit_event Py.ascii (Demo.self_open "1") w
  /\ (forall k event,
        db_event (CmdEvent.func Py.ascii Demo.settings Demo.time_format cmd w).2 !! k
        = Some event ->
        db_event w !! k = Some event \/ event !! "name" = Some (VStr "open"))
  /\ CmdEvent.func Py.ascii Demo.settings Demo.time_format (with_rhs cmd (Some "oPEN 1")) w
     = CmdEvent.func Py.ascii Demo.settings Demo.time_format cmd w.
Proof.
  intros w cmd.
  destruct (func_event_name_case Py.ascii Demo.settings Demo.time_format cmd w)
    as (Hrun & _ & Hsession & Hcase).
  split; [|split].
  - destruct (Hrun Demo.one_binding Demo.door) as (_ & _ & Hedit);
      [reflexivity|vm_compute; discriminate|reflexivity|].
    exact (Hedit eq_refl).
  - exact Hsession.
  - apply Hcase; reflexivity.
Defined.

Lemma lower_char_idempotent c : Py.lower_char (Py.lower_char c) = Py.lower_char c.
Proof. by destruct c as [[] [] [] [] [] [] [] []]. Qed.

(** The name [func] works with is in lower case already. *)
Lemma lower_idempotent s : Py.lower (Py.lower s) = Py.lower s.
Proof.
  induction s as [|c s IH]; [done|].
  simpl. by rewrite lower_char_idempotent, IH.
Qed.

(** An author who must be validated adds "open" to the door and saves
    "pass" from the editor: the store holds the one binding, with that
    code, not valid, numbered 0 in the session. *)
Example add_then_save :
  let w := Demo.world (Some (Demo.handler_with ∅)) None Demo.nobody in
  let run :=
    (CmdEvent.func Py.ascii Demo.settings Demo.time_format
       (Demo.cmd ("add" :: nil) "door = Open" "door" (Some "Open")) ;;
     _ev_save Demo.settings Demo.builder "pass")%cmd in
  (run w).1 = Ok true
  /\ filter is_store_call (trace (run w).2)
     = CallAddEvent Demo.door "open" "" Demo.builder false
       :: CallEditEvent (VObj Demo.door) (VStr "open") (VInt 0) "pass"
            Demo.builder false
       :: nil
  /\ (fun l : list Dict => (fun b : Dict => (b !! "code", b !! "valid")) <$> l)
       <$> stored (run w).2 Demo.door "open"
     = Some ((Some (VStr "pass"), Some (VBool false)) :: nil).
Proof. cbv zeta. repeat split; vm_compute; reflexivity. Qed.

(** * Further properties of the module *)

(** ** The help text *)

(** X1.  Asking for help changes nothing and gives a text that depends
    on the caller only through the validator lock.  The text holds the
    summary, the four basic usages, the three basic switches and the
    basic explanation for every caller; it holds the accept usage, the
    accept switch and the explanation of validation for the callers who
    pass the validator lock, and none of the three for anybody else, for
    whom the word "accept" does not occur in it at all. *)
Theorem get_help_mentions_accept settings caller w :
  let validator := check_lockstring w caller (validator_lock settings) in
  exists text,
    get_help settings caller w = (Ok text, w)
    /\ Forall (fun part => contains part text = true)
         (BASIC_HELP :: BASIC_USAGES ++ BASIC_SWITCHES ++ BASIC_TEXT :: nil)%list
    /\ Forall (fun part => contains part text = validator)
         (VALIDATOR_USAGES ++ VALIDATOR_SWITCHES ++ VALIDATOR_TEXT :: nil)%list
    /\ contains "accept" text = validator.
Proof.
  intros validator. unfold get_help. run. fold (validator_lock settings).
  fold validator. eexists. split; [reflexivity|].
  destruct validator; (split; [|split]);
    try (repeat apply Forall_cons_2; try apply Forall_nil_2);
    vm_compute; reflexivity.
Qed.

(** ** The dispatcher, branch by branch *)

Section Func.

Variable py : Builtins.
Variable settings : Settings.
Variable time_format : Z -> Z -> string.

Local Abbreviation func := (CmdEvent.func py settings time_format).

(** X2.  While the event handler is not running, every command line,
    whatever its switches, arguments and caller, gets the one answer that
    the handler is not running; no method is entered and store and
    sessions stay as they are. *)
Theorem func_handler_not_running cmd w :
  handler w = None ->
  func cmd w
  = (Ok tt, with_trace w (trace w ++
       Msg (caller cmd)
         "The event handler is not running, can't access the event system."
       :: nil)).
Proof.
  intros Hh. unfold CmdEvent.func. run. rewrite Hh.
  by destruct (Py.partition_space (default "" (rhs cmd))) as [[name sep] params].
Qed.

(** X3.  When the command has arguments and the search for the object
    finds nothing, [func] returns without a word of its own and without
    any effect, whichever switch was given, the accept switch of a
    validator included. *)
Theorem func_object_not_found cmd w :
  is_Some (handler w) ->
  strip py (args cmd) <> "" ->
  search w (caller cmd) (lhs cmd) = None ->
  func cmd w = (Ok tt, w).
Proof.
  intros [h Hh] Hargs Hsearch. unfold CmdEvent.func. run. rewrite Hh.
  destruct (Py.partition_space (default "" (rhs cmd))) as [[name sep] params].
  apply String.eqb_neq in Hargs. rewrite Hargs. simpl. by rewrite Hsearch.
Qed.

(** X4.  Without arguments, listing, adding, editing and deleting all
    end in the request to specify an object; nothing else happens. *)
Theorem func_needs_object cmd w :
  is_Some (handler w) ->
  strip py (args cmd) = "" ->
  hd "" (switches cmd) ∈ "" :: "add" :: "edit" :: "del" :: nil ->
  func cmd w
  = (Ok tt, with_trace w (trace w ++
       Msg (caller cmd) "Specify an object's name or #ID." :: nil)).
Proof.
  intros [h Hh] Hargs Hswitch. unfold CmdEvent.func. run. rewrite Hh, Hargs.
  destruct (Py.partition_space (default "" (rhs cmd))) as [[name sep] params].
  simpl. apply list_elem_of_In in Hswitch. simpl in Hswitch.
  destruct Hswitch as [<-|[<-|[<-|[<-|[]]]]]; reflexivity.
Qed.

(** X5.  A first switch that is none of the five the command knows is
    answered with the message about invalid switches, for validators as
    for everybody else, once the handler runs and the object, if one was
    named, is found. *)
Theorem func_unknown_switch cmd w :
  is_Some (handler w) ->
  strip py (args cmd) = "" \/ is_Some (search w (caller cmd) (lhs cmd)) ->
  hd "" (switches cmd) ∉ known_switches ->
  func cmd w
  = (Ok tt, with_trace w (trace w ++
       Msg (caller cmd)
         "Mutually exclusive or invalid switches were used, cannot proceed."
       :: nil)).
Proof.
  intros [h Hh] Hobj Hswitch. unfold CmdEvent.func.
  destruct (Py.partition_space (default "" (rhs cmd))) as [[name sep] params].
  assert (forall s, s ∈ known_switches -> String.eqb (hd "" (switches cmd)) s = false)
    as Hne.
  { intros s Hs. apply String.eqb_neq. intros Heq. apply Hswitch. by rewrite Heq. }
  cbv zeta.
  rewrite (Hne ""), (Hne "add"), (Hne "edit"), (Hne "del"), (Hne "accept")
    by (apply list_elem_of_In; simpl; tauto).
  run. rewrite Hh.
  destruct (String.eqb (strip py (args cmd)) "") eqn:Hargs; simpl; [done|].
  destruct Hobj as [Hobj|[o Hobj]].
  - apply String.eqb_neq in Hargs. done.
  - by rewrite Hobj.
Qed.

(** X6.  A validator who gives the accept switch reaches [accept_event],
    which announces itself and does nothing else: with or without an
    object and an event name, nothing is accepted, the store is as
    before. *)
Theorem func_accept_for_validator cmd w :
  check_lockstring w (caller cmd) (validator_lock settings) = true ->
  is_Some (handler w) ->
  strip py (args cmd) = "" \/ is_Some (search w (caller cmd) (lhs cmd)) ->
  hd "" (switches cmd) = "accept" ->
  func cmd w
  = (Ok tt, with_trace w (trace w ++
       Enter m_accept_event :: Msg (caller cmd) "Calling accept." :: nil)).
Proof.
  intros Hperm [h Hh] Hobj Hswitch. unfold CmdEvent.func. run.
  fold (validator_lock settings). rewrite Hperm, Hh, Hswitch.
  destruct (Py.partition_space (default "" (rhs cmd))) as [[name sep] params].
  destruct (String.eqb (strip py (args cmd)) "") eqn:Hargs; simpl.
  - unfold CmdEvent.accept_event. run. unfold with_trace. simpl.
    by rewrite <- app_assoc.
  - destruct Hobj as [Hobj|[o Hobj]].
    + apply String.eqb_neq in Hargs. done.
    + rewrite Hobj. simpl. unfold CmdEvent.accept_event. run.
      unfold with_trace. simpl. by rewrite <- app_assoc.
Qed.

(** X7.  The del switch on an object that is found reaches [del_event],
    which announces itself and deletes nothing: the bindings named on the
    command line are in the store as before. *)
Theorem func_del_deletes_nothing cmd w o :
  is_Some (handler w) ->
  strip py (args cmd) <> "" ->
  search w (caller cmd) (lhs cmd) = Some o ->
  hd "" (switches cmd) = "del" ->
  func cmd w
  = (Ok tt, with_trace w (trace w ++
       Enter m_del_event :: Msg (caller cmd) "Calling del." :: nil)).
Proof.
  intros [h Hh] Hargs Hobj Hswitch. unfold CmdEvent.func. run.
  rewrite Hh, Hswitch.
  destruct (Py.partition_space (default "" (rhs cmd))) as [[name sep] params].
  apply String.eqb_neq in Hargs. rewrite Hargs. simpl. rewrite Hobj. simpl.
  unfold CmdEvent.del_event. run. unfold with_trace. simpl. by rewrite <- app_assoc.
Qed.

Lemma func_preserves_handler_but_add cmd :
  hd "" (switches cmd) <> "add" ->
  preserves handler (func cmd).
Proof.
  intros Hswitch%String.eqb_neq. unfold CmdEvent.func.
  destruct (Py.partition_space (default "" (rhs cmd))) as [[name sep] params].
  cbv zeta. rewrite Hswitch.
  apply preserves_bind; [by intros ?|]. intros validator.
  apply preserves_bind; [by intros ?|]. intros [h|]; [|by intros ?].
  apply preserves_bind.
  { destruct (negb _); by intros ?. }
  intros obj.
  repeat match goal with
         | |- preserves _ (if ?b then _ else _) => destruct b
         end;
    try (by intros ?);
    apply with_obj_preserves; try done; intros o;
    first [ apply list_events_preserves_handler
          | apply edit_event_preserves_handler
          | by intros ? ].
Qed.

(** X8.  Of all the command lines, only those with the add switch can
    change the store: listing, editing (which only opens the editor),
    del, accept and every refusal leave the handler's data as they were,
    also when the command ends in an exception. *)
Theorem func_only_add_writes_store cmd w :
  hd "" (switches cmd) <> "add" ->
  handler (func cmd w).2 = handler w.
Proof. intros Hswitch. by apply func_preserves_handler_but_add. Qed.

(** X9.  Only the add and the edit switch can change a session:
    with any other first switch the [db._event] of every player is as
    before. *)
Theorem func_only_add_edit_set_session cmd w :
  hd "" (switches cmd) <> "add" ->
  hd "" (switches cmd) <> "edit" ->
  db_event (func cmd w).2 = db_event w.
Proof.
  intros Hadd%String.eqb_neq Hedit%String.eqb_neq. revert w.
  change (preserves db_event (func cmd)). unfold CmdEvent.func.
  destruct (Py.partition_space (default "" (rhs cmd))) as [[name sep] params].
  cbv zeta. rewrite Hadd, Hedit.
  apply preserves_bind; [by intros ?|]. intros validator.
  apply preserves_bind; [by intros ?|]. intros [h|]; [|by intros ?].
  apply preserves_bind.
  { destruct (negb _); by intros ?. }
  intros obj.
  repeat match goal with
         | |- preserves _ (if ?b then _ else _) => destruct b
         end;
    try (by intros ?);
    apply with_obj_preserves; try done; intros o;
    first [ apply list_events_preserves_db_event | by intros ? ].
Qed.

End Func.

(** ** Listing *)

Lemma result_map_Forall {A B} (f : A -> result B) (P : B -> Prop) l ys :
  (forall x y, f x = Ok y -> P y) ->
  result_map f l = Ok ys -> Forall P ys.
Proof.
  intros Hf. revert ys. induction l as [|x l IH]; intros ys; cbn [result_map].
  - intros [= <-]. constructor.
  - destruct (f x) as [y|e] eqn:Hy; [|done]. cbn [result_bind].
    destruct (result_map f l) as [ys'|e]; [|done]. cbn [result_bind].
    intros [= <-]. constructor; [by apply (Hf x)|by apply IH].
Qed.

Lemma summary_row_length py events item row :
  summary_row py events item = Ok row -> length row = 4%nat.
Proof.
  destruct item as [name infos]. unfold summary_row.
  destruct (sum_lines _ _) as [n|e]; [|done]. cbn [result_bind].
  destruct (splitlines py infos.2); [done|]. by intros [= <-].
Qed.

Section ListingMore.

Variable py : Builtins.
Variable time_format : Z -> Z -> string.

Lemma binding_row_length validator now item row :
  CmdEvent.binding_row time_format validator now item = Ok row ->
  length row = if validator then 4%nat else 3%nat.
Proof.
  destruct item as [i event]. unfold CmdEvent.binding_row. cbv zeta.
  repeat match goal with
         | |- context [result_bind ?r _] =>
             destruct r as [?|?]; [cbn [result_bind]|done]
         end.
  intros [= <-]. by destruct validator.
Qed.

(** X10.  Listing only reads: for every object, event name and state of
    the store, also when the listing ends in an exception, the store and
    the sessions of all players are as before. *)
Theorem list_events_reads_only self w :
  handler (CmdEvent.list_events py time_format self w).2 = handler w
  /\ db_event (CmdEvent.list_events py time_format self w).2 = db_event w.
Proof.
  split.
  - apply list_events_preserves_handler.
  - apply list_events_preserves_db_event.
Qed.

(** X11.  Whatever the store holds, each table a listing sends has rows of
    the width of its header: four cells per event type in the summary,
    and in the listing of one event three cells per binding, four for a
    validator. *)
Theorem list_events_tables_rectangular self w :
  exists es,
    trace (CmdEvent.list_events py time_format self w).2 = (trace w ++ es)%list
    /\ Forall rectangular es.
Proof.
  unfold CmdEvent.list_events. run.
  destruct (handler w) as [h|].
  2:{ exists (Enter m_list_events :: nil). split; [done|]. by repeat constructor. }
  destruct (negb (String.eqb (event_name self) "")).
  - destruct (Handler.get_events h (self_obj self) !! event_name self) as [created|].
    + simpl.
      destruct (result_map _ (enumerate created)) as [table_rows|e] eqn:Hrows.
      * eexists (Enter m_list_events :: MsgTable _ _ :: nil).
        split; [simpl; by rewrite <- app_assoc|].
        constructor; [done|]. constructor; [|done]. simpl.
        apply (result_map_Forall _ _ _ _
                 (fun x y => binding_row_length (is_validator self) (clock w) x y)) in Hrows.
        eapply Forall_impl; [exact Hrows|]. intros row ->.
        by destruct (is_validator self).
      * exists (Enter m_list_events :: nil). split; [done|]. by repeat constructor.
    + eexists (Enter m_list_events :: Msg _ _ :: nil).
      split; [simpl; by rewrite <- app_assoc|]. by repeat constructor.
  - simpl.
    destruct (result_map _ (sorted_items _)) as [table_rows|e] eqn:Hrows.
    + eexists (Enter m_list_events :: MsgTable _ _ :: nil).
      split; [simpl; by rewrite <- app_assoc|].
      constructor; [done|]. constructor; [|done]. simpl.
      by apply (result_map_Forall _ _ _ _ (summary_row_length py _)) in Hrows.
    + exists (Enter m_list_events :: nil). split; [done|]. by repeat constructor.
Qed.

(** X12.  The "Updated" cell of a binding shows the time since its last
    update when it has one, whatever its date of creation; without an
    update it shows the time since its creation; with neither, the
    placeholder.  (The author being an object or gone, so that the row can
    be made.) *)
Theorem binding_row_shows_last_update validator now i event :
  none_or is_obj (dict_get event "author") ->
  exists ordinal author rest,
    (forall u, dict_get event "updated_on" = VTime u ->
       CmdEvent.binding_row time_format validator now (i, event)
       = Ok (ordinal :: author :: CStr (time_format (now - u) 1) :: rest))
    /\ (forall c, dict_get event "updated_on" = VNone ->
          dict_get event "created_on" = VTime c ->
          CmdEvent.binding_row time_format validator now (i, event)
          = Ok (ordinal :: author :: CStr (time_format (now - c) 1) :: rest))
    /\ (dict_get event "updated_on" = VNone ->
        dict_get event "created_on" = VNone ->
        CmdEvent.binding_row time_format validator now (i, event)
        = Ok (ordinal :: author :: CStr "|gUnknown|n" :: rest)).
Proof.
  intros Hauthor. unfold CmdEvent.binding_row.
  exists (CStr (Py.str_int (i + 1))).
  exists (CStr match dict_get event "author" with
               | VObj a => key a
               | _ => "|gUnknown|n"
               end).
  exists (if validator
          then CStr (if truthy (dict_get event "valid") then "Yes" else "no") :: nil
          else nil).
  assert ((if truthy (dict_get event "author")
           then match dict_get event "author" with
                | VObj a => Ok (key a)
                | _ => Raise AttributeError
                end
           else Ok "|gUnknown|n")
          = Ok match dict_get event "author" with
               | VObj a => key a
               | _ => "|gUnknown|n"
               end) as Ha.
  { by destruct Hauthor as [->|[o ->]]. }
  cbv zeta. rewrite Ha. cbn [result_bind].
  split; [|split].
  - intros u ->. simpl. by destruct validator.
  - intros c -> ->. simpl. by destruct validator.
  - intros -> ->. simpl. by destruct validator.
Qed.

(** X13.  A validator's row ends in the "Valid" cell, which says "Yes"
    for a binding whose valid flag is true and "no" for one whose flag is
    false or missing; the row of anybody else has no such cell. *)
Theorem binding_row_valid_cell now i event row :
  CmdEvent.binding_row time_format true now (i, event) = Ok row ->
  exists cells,
    CmdEvent.binding_row time_format false now (i, event) = Ok cells
    /\ length cells = 3%nat
    /\ row = (cells ++ CStr (match event !! "valid" with
                             | Some (VBool true) => "Yes"
                             | Some (VBool false) | None => "no"
                             | Some v => if truthy v then "Yes" else "no"
                             end) :: nil)%list.
Proof.
  unfold CmdEvent.binding_row. cbv zeta.
  repeat match goal with
         | |- context [result_bind ?r _] =>
             destruct r as [?|?]; [cbn [result_bind]|done]
         end.
  intros [= <-]. eexists. split; [reflexivity|]. split; [done|].
  simpl. unfold dict_get.
  by destruct (event !! "valid") as [[|[]| | | |]|].
Qed.

End ListingMore.

(** ** Adding and editing, case by case *)

Section EditingMore.

Variable py : Builtins.

(** X14.  Adding an event whose name is no event type of the object's
    typeclass is refused with a message that names the event, the object
    and the typeclass; nothing is written, no session is set and no
    editor is opened. *)
Theorem add_event_unknown_type self w h :
  handler w = Some h ->
  Handler.get_event_types h (self_obj self) !! event_name self = None ->
  CmdEvent.add_event self w
  = (Ok tt, with_trace w (trace w ++
       Enter m_add_event
       :: Msg (self_caller self)
            ("The event name " ++ event_name self ++ " can't be found in "
             ++ str_obj (self_obj self) ++ " of typeclass "
             ++ str_type (self_obj self) ++ ".")
       :: nil)).
Proof.
  intros Hh Hty. unfold CmdEvent.add_event. run. rewrite Hh, Hty.
  unfold with_trace. simpl. by rewrite <- app_assoc.
Qed.

(** X15.  Editing an event name under which the object has no entry is
    refused with a message, whatever ordinal was given and whether or not
    the name is an event type: no session is set, no editor is opened. *)
Theorem edit_event_unknown_name self w h :
  handler w = Some h ->
  Handler.get_events h (self_obj self) !! event_name self = None ->
  CmdEvent.edit_event py self w
  = (Ok tt, with_trace w (trace w ++
       Enter m_edit_event
       :: Msg (self_caller self)
            ("The event name " ++ event_name self ++ " can't be found in "
             ++ str_obj (self_obj self) ++ ".")
       :: nil)).
Proof.
  intros Hh Hev. unfold CmdEvent.edit_event. run. rewrite Hh, Hev.
  unfold with_trace. simpl. by rewrite <- app_assoc.
Qed.

Lemma edit_event_result self w h bindings n definition :
  handler w = Some h ->
  Handler.get_events h (self_obj self) !! event_name self = Some bindings ->
  int py (parameters self) = Some n ->
  1 <= n <= Z.of_nat (length bindings) ->
  Handler.get_event_types h (self_obj self) !! event_name self = Some definition ->
  exists event,
    bindings !! Z.to_nat (n - 1) = Some event
    /\ CmdEvent.edit_event py self w
       = (Ok tt,
          {| handler := handler w;
             db_event := <[dbref (self_caller self) :=
                             session_of event (self_obj self) (event_name self) (n - 1)]>
                           (db_event w);
             trace := trace w ++ Enter m_edit_event
                      :: Msg (self_caller self) definition.2
                      :: EvEditor (self_caller self) (editor_key self) true :: nil;
             clock := clock w;
             check_lockstring := check_lockstring w;
             search := search w |}).
Proof.
  intros Hh Hev Hint Hn Hty.
  destruct (try_parameters_found py _ bindings n Hint Hn) as (event & Hevent & Htry).
  exists event. split; [done|].
  unfold CmdEvent.edit_event. run. rewrite Hh, Hev, Htry, Hty.
  unfold with_trace, with_db_event, CmdEvent.open_editor, emit, with_trace. simpl.
  rewrite <- !app_assoc. simpl. by rewrite Hh.
Qed.

(** X16.  Editing the binding with ordinal n of an event (n counted from
    1, at most the number of bindings, the event being an event type)
    shows the description of the type, makes a copy of the n-th binding
    with the object, the event name and the number n - 1 the caller's
    session, and opens the editor on it; the store is not touched. *)
Theorem edit_event_opens_session self w h bindings n definition :
  handler w = Some h ->
  Handler.get_events h (self_obj self) !! event_name self = Some bindings ->
  int py (parameters self) = Some n ->
  1 <= n <= Z.of_nat (length bindings) ->
  Handler.get_event_types h (self_obj self) !! event_name self = Some definition ->
  exists event,
    bindings !! Z.to_nat (n - 1) = Some event
    /\ let (r, w') := CmdEvent.edit_event py self w in
       r = Ok tt
       /\ handler w' = handler w
       /\ db_event w' !! dbref (self_caller self)
          = Some (<["number" := VInt (n - 1)]>
                  (<["name" := VStr (event_name self)]>
                   (<["obj" := VObj (self_obj self)]> event)))
       /\ trace w' = (trace w ++
            Enter m_edit_event
            :: Msg (self_caller self) definition.2
            :: EvEditor (self_caller self)
                 ("Event " ++ event_name self ++ " of " ++ str_obj (self_obj self)) true
            :: nil)%list.
Proof.
  intros Hh Hev Hint Hn Hty.
  destruct (edit_event_result self w h bindings n definition Hh Hev Hint Hn Hty)
    as (event & Hevent & ->).
  exists event. split; [done|]. simpl.
  split; [done|]. split; [done|]. split; [|done]. apply lookup_insert_eq.
Qed.


(** X18.  The ordinal is not optional: an edit request without
    parameters, or with blank ones, never opens the editor, not even when
    the event has exactly one binding; it is answered that the event
    cannot be found. *)
Theorem edit_event_needs_ordinal self w h bindings :
  handler w = Some h ->
  Handler.get_events h (self_obj self) !! event_name self = Some bindings ->
  strip py (parameters self) = "" ->
  CmdEvent.edit_event py self w
  = (Ok tt, with_trace w (trace w ++
       Enter m_edit_event
       :: Msg (self_caller self)
            ("The event " ++ event_name self ++ " " ++ parameters self
             ++ " cannot be found in " ++ str_obj (self_obj self) ++ ".")
       :: nil)).
Proof.
  intros Hh Hev Hblank. unfold CmdEvent.edit_event. run. rewrite Hh, Hev.
  rewrite (try_parameters_not_int py _ bindings (int_of_blank py _ Hblank)). simpl.
  unfold with_trace. simpl. by rewrite <- app_assoc.
Qed.

End EditingMore.

(** ** The editor callbacks after the command *)

Lemma add_event_result self w h definition :
  handler w = Some h ->
  Handler.get_event_types h (self_obj self) !! event_name self = Some definition ->
  let old := default nil (Handler.get_events h (self_obj self) !! event_name self) in
  let b := Handler.new_binding "" (self_caller self) false (clock w) in
  CmdEvent.add_event self w
  = (Ok tt,
     {| handler := Some (Handler.set_bindings h (self_obj self) (event_name self)
                           (old ++ b :: nil));
        db_event := <[dbref (self_caller self) :=
                        Handler.addressed b (self_obj self) (event_name self)
                          (Z.of_nat (length old))]> (db_event w);
        trace := trace w ++ Enter m_add_event
                 :: Msg (self_caller self) definition.2
                 :: CallAddEvent (self_obj self) (event_name self) ""
                      (self_caller self) false
                 :: EvEditor (self_caller self) (editor_key self) true :: nil;
        clock := clock w;
        check_lockstring := check_lockstring w;
        search := search w |}).
Proof.
  intros Hh Hty old b. unfold CmdEvent.add_event. run.
  rewrite Hh, Hty. unfold handler_add_event. simpl. rewrite Hh.
  unfold Handler.add_event. rewrite Hty. simpl.
  unfold CmdEvent.open_editor, emit, with_trace, with_db_event, with_handler. simpl.
  by rewrite <- !app_assoc.
Qed.

Section SaveMore.

Variable py : Builtins.
Variable settings : Settings.

Lemma ev_save_result caller buf w h d o n i b :
  handler w = Some h ->
  db_event w !! dbref caller = Some d ->
  d !! "obj" = Some (VObj o) ->
  d !! "name" = Some (VStr n) ->
  d !! "number" = Some (VInt i) ->
  is_Some (d !! "valid") ->
  0 <= i ->
  default nil (Handler.get_events h o !! n) !! Z.to_nat i = Some b ->
  let valid := check_lockstring w caller (bypass_lock settings) in
  _ev_save settings caller buf w
  = (Ok true,
     {| handler := Some (Handler.set_bindings h o n
                           (<[Z.to_nat i := edited b buf caller valid (clock w)]>
                              (default nil (Handler.get_events h o !! n))));
        db_event := db_event w;
        trace := trace w ++ CallEditEvent (VObj o) (VStr n) (VInt i) buf caller valid
                 :: nil;
        clock := clock w;
        check_lockstring := check_lockstring w;
        search := search w |}).
Proof.
  intros Hh Hd Ho Hn Hi Hv Hpos Hb valid. unfold _ev_save. run.
  assert (session_complete w caller d) as Hc.
  { split; [by eexists|]. split; [done|]. intros k Hk.
    apply list_elem_of_In in Hk. simpl in Hk.
    destruct Hk as [<-|[<-|[<-|[<-|[]]]]]; by eauto. }
  rewrite (can_save_complete w caller d Hc). simpl. rewrite Hd. simpl.
  unfold dict_get. rewrite Ho, Hn, Hi. simpl.
  unfold handler_edit_event. simpl. rewrite Hh.
  unfold Handler.edit_event.
  destruct (Z.ltb_spec i 0); [lia|]. rewrite Hb. done.
Qed.

Lemma ev_save_success_inv caller buf w w' :
  _ev_save settings caller buf w = (Ok true, w') ->
  exists h d o n i b,
    handler w = Some h /\ db_event w !! dbref caller = Some d
    /\ d !! "obj" = Some (VObj o) /\ d !! "name" = Some (VStr n)
    /\ d !! "number" = Some (VInt i) /\ is_Some (d !! "valid")
    /\ 0 <= i
    /\ default nil (Handler.get_events h o !! n) !! Z.to_nat i = Some b.
Proof.
  unfold _ev_save. run.
  destruct (can_save (handler w) (db_event w !! dbref caller)) eqn:Hc; [|done].
  apply can_save_inv in Hc as (d & [h Hh] & Hd & Hkeys). simpl.
  rewrite Hd. simpl. unfold handler_edit_event. simpl. rewrite Hh.
  destruct (Hkeys "obj") as [vo Ho]; [set_solver|].
  destruct (Hkeys "name") as [vn Hn]; [set_solver|].
  destruct (Hkeys "number") as [vi Hi]; [set_solver|].
  unfold dict_get. rewrite Ho, Hn, Hi. simpl.
  destruct vo as [| | | |o|]; try done.
  destruct vn as [| | |n| |]; try done.
  destruct vi as [| |i| | |]; try done.
  unfold Handler.edit_event.
  destruct (Z.ltb_spec i 0); [done|].
  destruct (default [] (Handler.get_events h o !! n) !! Z.to_nat i) as [b|] eqn:Hb;
    [|done].
  intros _. exists h, d, o, n, i, b. repeat (split; [done|]).
  split; [apply Hkeys; set_solver|]. done.
Qed.

Lemma ev_save_preserves_db_event caller buf :
  preserves db_event (_ev_save settings caller buf).
Proof.
  intros w. unfold _ev_save. run.
  destruct (negb _); [done|].
  unfold handler_edit_event. simpl.
  destruct (handler w) as [h|]; [|done].
  destruct (dict_get _ "obj"), (dict_get _ "name"), (dict_get _ "number"); try done.
  by destruct (Handler.edit_event _ _ _ _ _ _ _ _) as [[??]|].
Qed.

(** X19.  Adding an event and saving the buffer from the editor that
    was opened always succeeds: afterwards the bindings of the event are
    those there were, followed by one new binding that holds the saved
    text, the caller as author and a valid flag that is the caller's
    permission to bypass validation. *)
Theorem add_event_then_save self buf w h definition :
  handler w = Some h ->
  Handler.get_event_types h (self_obj self) !! event_name self = Some definition ->
  let old := default nil (Handler.get_events h (self_obj self) !! event_name self) in
  let run := (CmdEvent.add_event self ;; _ev_save settings (self_caller self) buf)%cmd in
  (run w).1 = Ok true
  /\ stored (run w).2 (self_obj self) (event_name self)
     = Some (old ++ edited (Handler.new_binding "" (self_caller self) false (clock w))
                      buf (self_caller self)
                      (check_lockstring w (self_caller self) (bypass_lock settings))
                      (clock w) :: nil)%list.
Proof.
  intros Hh Hty old run. unfold run, bind.
  rewrite (add_event_result self w h definition Hh Hty). fold old.
  set (b := Handler.new_binding "" (self_caller self) false (clock w)).
  match goal with
  | |- context [_ev_save settings ?c buf ?w1] =>
      rewrite (ev_save_result c buf w1
                 (Handler.set_bindings h (self_obj self) (event_name self)
                    (old ++ b :: nil))
                 (Handler.addressed b (self_obj self) (event_name self)
                    (Z.of_nat (length old)))
                 (self_obj self) (event_name self) (Z.of_nat (length old)) b)
  end; simpl.
  - split; [done|]. unfold stored. simpl. rewrite !get_events_set_bindings. simpl.
    f_equal. rewrite Nat2Z.id.
    rewrite insert_app_r_alt by done. by rewrite Nat.sub_diag.
  - reflexivity.
  - apply lookup_insert_eq.
  - unfold Handler.addressed. by rewrite !lookup_insert_ne by done; rewrite lookup_insert_eq.
  - unfold Handler.addressed. by rewrite lookup_insert_ne by done; rewrite lookup_insert_eq.
  - unfold Handler.addressed. apply lookup_insert_eq.
  - unfold Handler.addressed. rewrite !lookup_insert_ne by done. by eexists.
  - lia.
  - rewrite get_events_set_bindings. simpl. rewrite Nat2Z.id.
    by rewrite list_lookup_middle.
Qed.

(** X20.  Editing the n-th binding of an event and saving the buffer
    from the editor succeeds when the binding carries a valid flag: the
    store then holds the saved text, the caller as author and the new
    flag at place n, and every other binding of the list as it was. *)
Theorem edit_event_then_save self buf w h bindings n definition event :
  handler w = Some h ->
  Handler.get_events h (self_obj self) !! event_name self = Some bindings ->
  int py (parameters self) = Some n ->
  1 <= n <= Z.of_nat (length bindings) ->
  Handler.get_event_types h (self_obj self) !! event_name self = Some definition ->
  bindings !! Z.to_nat (n - 1) = Some event ->
  is_Some (event !! "valid") ->
  let run := (CmdEvent.edit_event py self ;; _ev_save settings (self_caller self) buf)%cmd in
  (run w).1 = Ok true
  /\ stored (run w).2 (self_obj self) (event_name self)
     = Some (<[Z.to_nat (n - 1) :=
                 edited event buf (self_caller self)
                   (check_lockstring w (self_caller self) (bypass_lock settings))
                   (clock w)]> bindings).
Proof.
  intros Hh Hev Hint Hn Hty Hevent [v Hvalid] run. unfold run, bind.
  destruct (edit_event_result py self w h bindings n definition Hh Hev Hint Hn Hty)
    as (event' & Hevent' & ->).
  assert (event' = event) as -> by congruence.
  match goal with
  | |- context [_ev_save settings ?c buf ?w1] =>
      rewrite (ev_save_result c buf w1 h
                 (session_of event (self_obj self) (event_name self) (n - 1))
                 (self_obj self) (event_name self) (n - 1) event)
  end; simpl.
  - split; [done|]. unfold stored. simpl. rewrite get_events_set_bindings.
    by rewrite Hev.
  - done.
  - apply lookup_insert_eq.
  - unfold session_of. by rewrite !lookup_insert_ne by done; rewrite lookup_insert_eq.
  - unfold session_of. by rewrite lookup_insert_ne by done; rewrite lookup_insert_eq.
  - unfold session_of. apply lookup_insert_eq.
  - unfold session_of. rewrite !lookup_insert_ne by done. by eexists.
  - lia.
  - by rewrite Hev.
Qed.

End SaveMore.

Lemma ev_load_of_session caller w d :
  db_event w !! dbref caller = Some d ->
  is_Some (d !! "obj") ->
  _ev_load caller w
  = (Ok (let code := default (VStr "") (d !! "code") in
         if truthy code then code else VStr ""), w).
Proof.
  intros Hd Hobj. unfold _ev_load. run. rewrite Hd.
  by rewrite (dict_falsy_with_key d "obj" Hobj).
Qed.

(** X21.  The editor opened by an edit request loads the text of the
    binding that was addressed: after [edit_event] has opened the editor
    on the n-th binding, [_ev_load] returns its code. *)
Theorem edit_event_then_load py self w h bindings n definition event code :
  handler w = Some h ->
  Handler.get_events h (self_obj self) !! event_name self = Some bindings ->
  int py (parameters self) = Some n ->
  1 <= n <= Z.of_nat (length bindings) ->
  Handler.get_event_types h (self_obj self) !! event_name self = Some definition ->
  bindings !! Z.to_nat (n - 1) = Some event ->
  event !! "code" = Some (VStr code) ->
  ((CmdEvent.edit_event py self ;; _ev_load (self_caller self))%cmd w).1
  = Ok (VStr code).
Proof.
  intros Hh Hev Hint Hn Hty Hevent Hcode. unfold bind.
  destruct (edit_event_result py self w h bindings n definition Hh Hev Hint Hn Hty)
    as (event' & Hevent' & ->).
  assert (event' = event) as -> by congruence.
  rewrite (ev_load_of_session _ _
             (session_of event (self_obj self) (event_name self) (n - 1))); simpl.
  - unfold session_of. rewrite !lookup_insert_ne by done. rewrite Hcode. simpl.
    by destruct code.
  - apply lookup_insert_eq.
  - unfold session_of. rewrite !lookup_insert_ne by done.
    rewrite lookup_insert_eq. by eexists.
Qed.

(** X22.  The editor opened by an add request loads the empty text,
    whatever session the caller had before. *)
Theorem add_event_then_load self w h definition :
  handler w = Some h ->
  Handler.get_event_types h (self_obj self) !! event_name self = Some definition ->
  ((CmdEvent.add_event self ;; _ev_load (self_caller self))%cmd w).1
  = Ok (VStr "").
Proof.
  intros Hh Hty. unfold bind.
  rewrite (add_event_result self w h definition Hh Hty).
  rewrite (ev_load_of_session _ _
             (Handler.addressed
                (Handler.new_binding "" (self_caller self) false (clock w))
                (self_obj self) (event_name self)
                (Z.of_nat (length (default nil
                   (Handler.get_events h (self_obj self) !! event_name self))))));
    simpl.
  - unfold Handler.addressed. by rewrite !lookup_insert_ne by done.
  - apply lookup_insert_eq.
  - unfold Handler.addressed. rewrite !lookup_insert_ne by done.
    rewrite lookup_insert_eq. by eexists.
Qed.

(** X23.  Abandoning an addition does not undo it: when the caller quits
    the editor that an add request opened without saving, the session is
    gone but the empty, not valid binding stays in the store, after the
    bindings there were. *)
Theorem add_event_then_quit self w h definition :
  handler w = Some h ->
  Handler.get_event_types h (self_obj self) !! event_name self = Some definition ->
  let old := default nil (Handler.get_events h (self_obj self) !! event_name self) in
  let run := (CmdEvent.add_event self ;; _ev_quit (self_caller self))%cmd in
  (run w).1 = Ok tt
  /\ db_event (run w).2 !! dbref (self_caller self) = None
  /\ stored (run w).2 (self_obj self) (event_name self)
     = Some (old ++ Handler.new_binding "" (self_caller self) false (clock w) :: nil)%list.
Proof.
  intros Hh Hty old run. unfold run, bind.
  rewrite (add_event_result self w h definition Hh Hty). simpl.
  split; [done|]. split; [apply lookup_delete_eq|].
  unfold stored. simpl. apply get_events_set_bindings.
Qed.

Section SaveAgain.

Variable settings : Settings.

(** X24.  Quitting closes the session for saving: a save that follows
    [_ev_quit] returns [False] with the message that the event could not
    be saved, and calls nothing; the store is as it was before the
    quit. *)
Theorem ev_quit_then_save caller buf w :
  (_ev_quit caller ;; _ev_save settings caller buf)%cmd w
  = (Ok false,
     {| handler := handler w;
        db_event := delete (dbref caller) (db_event w);
        trace := trace w ++ Msg caller "Exited the code editor."
                 :: Msg caller "Couldn't save this event." :: nil;
        clock := clock w;
        check_lockstring := check_lockstring w;
        search := search w |}).
Proof.
  unfold _ev_quit, _ev_save. run.
  rewrite lookup_delete_eq.
  assert (can_save (handler w) None = false) as -> by (by destruct (handler w)).
  simpl. unfold with_trace. simpl. by rewrite <- app_assoc.
Qed.

(** X25.  A save, whether it succeeds, fails or raises, leaves the
    sessions of all players as they are: saving does not close the
    editor's session. *)
Theorem ev_save_keeps_sessions caller buf w :
  db_event (_ev_save settings caller buf w).2 = db_event w.
Proof. apply ev_save_preserves_db_event. Qed.

(** X26.  After a save that succeeded, another save from the same
    session succeeds as well, and the text of the later save is the one
    the store holds for the binding of the session. *)
Theorem ev_save_twice caller buf1 buf2 w w1 :
  _ev_save settings caller buf1 w = (Ok true, w1) ->
  exists w2 d o n i l b,
    _ev_save settings caller buf2 w1 = (Ok true, w2)
    /\ db_event w !! dbref caller = Some d
    /\ d !! "obj" = Some (VObj o) /\ d !! "name" = Some (VStr n)
    /\ d !! "number" = Some (VInt i)
    /\ stored w2 o n = Some l /\ l !! Z.to_nat i = Some b
    /\ code_of b = Some buf2.
Proof.
  intros Hsave.
  destruct (ev_save_success_inv settings caller buf1 w w1 Hsave)
    as (h & d & o & n & i & b & Hh & Hd & Ho & Hn & Hi & Hv & Hpos & Hb).
  rewrite (ev_save_result settings caller buf1 w h d o n i b Hh Hd Ho Hn Hi Hv Hpos Hb)
    in Hsave.
  injection Hsave as <-.
  set (l1 := <[Z.to_nat i := edited b buf1 caller
                 (check_lockstring w caller (bypass_lock settings)) (clock w)]>
               (default nil (Handler.get_events h o !! n))).
  assert (Z.to_nat i < length (default nil (Handler.get_events h o !! n)))%nat as Hlt
    by (by apply lookup_lt_Some in Hb).
  eexists _, d, o, n, i, _, _.
  split.
  { apply (ev_save_result settings caller buf2 _
             (Handler.set_bindings h o n l1) d o n i
             (edited b buf1 caller
                (check_lockstring w caller (bypass_lock settings)) (clock w)));
      simpl; try done.
    rewrite get_events_set_bindings. simpl. unfold l1.
    by apply list_lookup_insert_eq. }
  repeat (split; [done|]).
  split; [unfold stored; simpl; apply get_events_set_bindings|].
  split.
  - rewrite get_events_set_bindings. simpl. apply list_lookup_insert_eq.
    unfold l1. by rewrite length_insert.
  - unfold code_of, edited. rewrite !lookup_insert_ne by done.
    by rewrite lookup_insert_eq.
Qed.

Lemma ev_save_keeps_wf caller buf w :
  world_wf w -> world_wf (_ev_save settings caller buf w).2.
Proof.
  intros Hwf h'. unfold _ev_save. run.
  destruct (negb _); [apply Hwf|].
  unfold handler_edit_event. simpl.
  destruct (handler w) as [h|] eqn:Hh; [|simpl; by rewrite Hh].
  destruct (dict_get _ "obj") as [| | | |o|];
    try (simpl; rewrite Hh; intros [= <-]; by apply Hwf).
  destruct (dict_get _ "name") as [| | |n| |];
    try (simpl; rewrite Hh; intros [= <-]; by apply Hwf).
  destruct (dict_get _ "number") as [| |i| | |];
    try (simpl; rewrite Hh; intros [= <-]; by apply Hwf).
  destruct (Handler.edit_event _ _ _ _ _ _ _ _) as [[event h1]|e] eqn:Hedit; simpl.
  - intros [= <-]. by apply (edit_event_keeps_wf _ _ _ _ _ _ _ _ _ _ (Hwf h Hh) Hedit).
  - rewrite Hh. intros [= <-]. by apply Hwf.
Qed.

End SaveAgain.

(** ** The data model as an invariant of the commands *)

Lemma add_event_cmd_keeps_wf self w :
  world_wf w -> world_wf (CmdEvent.add_event self w).2.
Proof.
  intros Hwf h'.
  destruct (handler w) as [h|] eqn:Hh.
  - destruct (Handler.get_event_types h (self_obj self) !! event_name self)
      as [definition|] eqn:Hty.
    + rewrite (add_event_result self w h definition Hh Hty). simpl.
      intros [= <-]. apply set_bindings_wf; [by apply Hwf|].
      apply Forall_app. split; [apply bindings_wf; by apply Hwf|].
      constructor; [apply new_binding_wf|constructor].
    + unfold CmdEvent.add_event. run. rewrite Hh, Hty. simpl.
      rewrite Hh. intros [= <-]. by apply Hwf.
  - unfold CmdEvent.add_event. run. rewrite Hh. simpl. by rewrite Hh.
Qed.

Section Invariant.

Variable py : Builtins.
Variable settings : Settings.
Variable time_format : Z -> Z -> string.

Lemma func_keeps_wf cmd w :
  world_wf w -> world_wf (CmdEvent.func py settings time_format cmd w).2.
Proof.
  intros Hwf.
  destruct (String.eqb (hd "" (switches cmd)) "add") eqn:Hswitch.
  - apply String.eqb_eq in Hswitch.
    unfold CmdEvent.func. run. rewrite Hswitch.
    destruct (Py.partition_space (default "" (rhs cmd))) as [[name sep] params].
    destruct (handler w) as [h|] eqn:Hh.
    2:{ intros h'. simpl. by rewrite Hh. }
    destruct (negb (String.eqb (strip py (args cmd)) "")); simpl.
    + destruct (search w (caller cmd) (lhs cmd)) as [o|]; simpl; [|done].
      by apply add_event_cmd_keeps_wf.
    + intros h'. simpl. rewrite Hh. intros [= <-]. by apply Hwf.
  - apply String.eqb_neq in Hswitch. intros h'.
    rewrite (func_preserves_handler_but_add py settings time_format cmd Hswitch w).
    apply Hwf.
Qed.

(** X27.  The commands keep the store within its data model: if every
    stored binding has text for code, an object or nothing for author and
    times or nothing for its dates, then this is so after any command
    line and after any save, whether they succeed, refuse or raise. *)
Theorem commands_keep_data_model cmd caller buf w :
  world_wf w ->
  world_wf (CmdEvent.func py settings time_format cmd w).2
  /\ world_wf (_ev_save settings caller buf w).2.
Proof.
  intros Hwf. split; [by apply func_keeps_wf|by apply ev_save_keeps_wf].
Qed.

End Invariant.

(** ** How [func] reads the right-hand side *)

Lemma partition_space_no_space r :
  contains " " r = false -> Py.partition_space r = (r, "", "").
Proof.
  induction r as [|c r IH]; [done|]. cbn [contains starts_with Py.partition_space].
  rewrite andb_true_r. intros [Hc Hr]%orb_false_iff.
  rewrite Ascii.eqb_sym, Hc. by rewrite (IH Hr).
Qed.

Lemma partition_space_at_space name params :
  contains " " name = false ->
  Py.partition_space (name ++ " " ++ params) = (name, " ", params).
Proof.
  induction name as [|c name IH]; [done|].
  cbn [contains starts_with]. rewrite andb_true_r. intros [Hc Hr]%orb_false_iff.
  simpl. rewrite Ascii.eqb_sym, Hc. by rewrite (IH Hr).
Qed.

Section Rhs.

Variable py : Builtins.
Variable settings : Settings.
Variable time_format : Z -> Z -> string.

(** X28.  [func] takes as event name the right-hand side up to its first
    space, put in lower case, and as parameters all that follows that
    space, further spaces included; a right-hand side without a space is
    an event name with empty parameters, and a command without a
    right-hand side is read as one with the empty right-hand side.  This
    is stated of the edit switch, the one whose method reads the
    parameters: with the handler running and the object found, the run of
    [func] is the run of [edit_event] on that event name and those
    parameters. *)
Theorem func_reads_rhs cmd w h o name params :
  handler w = Some h ->
  strip py (args cmd) <> "" ->
  search w (caller cmd) (lhs cmd) = Some o ->
  hd "" (switches cmd) = "edit" ->
  contains " " name = false ->
  let self p :=
    {| self_caller := caller cmd; self_obj := o; event_name := lower py name;
       parameters := p;
       is_validator := check_lockstring w (caller cmd) (validator_lock settings) |} in
  CmdEvent.func py settings time_format (with_rhs cmd (Some (name ++ " " ++ params))) w
  = CmdEvent.edit_event py (self params) w
  /\ CmdEvent.func py settings time_format (with_rhs cmd (Some name)) w
     = CmdEvent.edit_event py (self "") w
  /\ CmdEvent.func py settings time_format (with_rhs cmd None) w
     = CmdEvent.func py settings time_format (with_rhs cmd (Some "")) w.
Proof.
  intros Hh Hargs Hobj Hswitch Hname self.
  split; [|split; [|reflexivity]].
  - rewrite (func_found py settings time_format
               (with_rhs cmd (Some (name ++ " " ++ params))) w h o Hh Hargs Hobj).
    change (switches (with_rhs cmd _)) with (switches cmd). rewrite Hswitch.
    change (default "" (rhs (with_rhs cmd (Some ?r)))) with r.
    unfold rhs_event_name, rhs_parameters.
    by rewrite (partition_space_at_space _ _ Hname).
  - rewrite (func_found py settings time_format
               (with_rhs cmd (Some name)) w h o Hh Hargs Hobj).
    change (switches (with_rhs cmd _)) with (switches cmd). rewrite Hswitch.
    change (default "" (rhs (with_rhs cmd (Some ?r)))) with r.
    unfold rhs_event_name, rhs_parameters.
    by rewrite (partition_space_no_space _ Hname).
Qed.

End Rhs.

(** ** The further properties on the small game *)

Lemma play_wf : world_wf Play.w.
Proof. intros h [= <-]. apply one_binding_wf. Qed.

Lemma func_handler_not_running_witness :
  handler Play.w_off = None
  /\ CmdEvent.func Py.ascii Demo.settings Demo.time_format
       (Demo.cmd ("edit" :: nil) "door = open 1" "door" (Some "open 1")) Play.w_off
     = (Ok tt, with_trace Play.w_off
          (Msg Demo.builder
             "The event handler is not running, can't access the event system."
           :: nil)).
Proof.
  split; [reflexivity|].
  apply (func_handler_not_running Py.ascii Demo.settings Demo.time_format
           (Demo.cmd ("edit" :: nil) "door = open 1" "door" (Some "open 1"))
           Play.w_off).
  reflexivity.
Defined.

Lemma func_object_not_found_witness :
  let cmd := Demo.cmd ("accept" :: nil) "ghost" "ghost" None in
  search Play.w_trusted (caller cmd) (lhs cmd) = None
  /\ CmdEvent.func Py.ascii Demo.settings Demo.time_format cmd Play.w_trusted
     = (Ok tt, Play.w_trusted).
Proof.
  intros cmd. split; [reflexivity|].
  apply (func_object_not_found Py.ascii Demo.settings Demo.time_format cmd Play.w_trusted).
  - by eexists.
  - discriminate.
  - reflexivity.
Defined.

Lemma func_needs_object_witness :
  let cmd := Demo.cmd ("del" :: nil) "" "" None in
  CmdEvent.func Py.ascii Demo.settings Demo.time_format cmd Play.w
  = (Ok tt, with_trace Play.w
       (Msg Demo.builder "Specify an object's name or #ID." :: nil)).
Proof.
  intros cmd.
  apply (func_needs_object Py.ascii Demo.settings Demo.time_format cmd Play.w).
  - by eexists.
  - reflexivity.
  - apply list_elem_of_In. simpl. tauto.
Defined.

Lemma func_unknown_switch_witness :
  let cmd := Demo.cmd ("rename" :: nil) "door" "door" None in
  (hd "" (switches cmd) ∉ known_switches)
  /\ CmdEvent.func Py.ascii Demo.settings Demo.time_format cmd Play.w_trusted
     = (Ok tt, with_trace Play.w_trusted
          (Msg Demo.builder
             "Mutually exclusive or invalid switches were used, cannot proceed."
           :: nil)).
Proof.
  intros cmd.
  assert (hd "" (switches cmd) ∉ known_switches) as Hswitch.
  { intros Hin. apply list_elem_of_In in Hin. simpl in Hin.
    destruct Hin as [H|[H|[H|[H|[H|[]]]]]]; discriminate H. }
  split; [exact Hswitch|].
  apply (func_unknown_switch Py.ascii Demo.settings Demo.time_format cmd Play.w_trusted).
  - by eexists.
  - right. by eexists.
  - exact Hswitch.
Defined.

Lemma func_accept_for_validator_witness :
  let cmd := Demo.cmd ("accept" :: nil) "door = open 1" "door" (Some "open 1") in
  check_lockstring Play.w_trusted (caller cmd) (validator_lock Demo.settings) = true
  /\ CmdEvent.func Py.ascii Demo.settings Demo.time_format cmd Play.w_trusted
     = (Ok tt, with_trace Play.w_trusted
          (Enter m_accept_event :: Msg Demo.builder "Calling accept." :: nil)).
Proof.
  intros cmd. split; [reflexivity|].
  apply (func_accept_for_validator Py.ascii Demo.settings Demo.time_format cmd Play.w_trusted).
  - reflexivity.
  - by eexists.
  - right. by eexists.
  - reflexivity.
Defined.

Lemma func_del_deletes_nothing_witness :
  let cmd := Demo.cmd ("del" :: nil) "door = open 1" "door" (Some "open 1") in
  CmdEvent.func Py.ascii Demo.settings Demo.time_format cmd Play.w
  = (Ok tt, with_trace Play.w
       (Enter m_del_event :: Msg Demo.builder "Calling del." :: nil)).
Proof.
  intros cmd.
  apply (func_del_deletes_nothing Py.ascii Demo.settings Demo.time_format cmd Play.w Demo.door).
  - by eexists.
  - discriminate.
  - reflexivity.
  - reflexivity.
Defined.

Lemma func_only_add_writes_store_witness :
  let cmd := Demo.cmd ("edit" :: nil) "door = open 1" "door" (Some "open 1") in
  handler (CmdEvent.func Py.ascii Demo.settings Demo.time_format cmd Play.w).2
  = Some Demo.one_binding.
Proof.
  intros cmd.
  apply (func_only_add_writes_store Py.ascii Demo.settings Demo.time_format cmd Play.w).
  discriminate.
Defined.

Lemma func_only_add_edit_set_session_witness :
  let cmd := Demo.cmd nil "door = open" "door" (Some "open") in
  db_event (CmdEvent.func Py.ascii Demo.settings Demo.time_format cmd
              (Demo.editing Demo.nobody)).2
  = db_event (Demo.editing Demo.nobody).
Proof.
  intros cmd.
  apply (func_only_add_edit_set_session Py.ascii Demo.settings Demo.time_format cmd
           (Demo.editing Demo.nobody)); discriminate.
Defined.

Lemma binding_row_shows_last_update_witness :
  dict_get Play.updated "updated_on" = VTime 130
  /\ dict_get Play.updated "created_on" = VTime 100
  /\ exists ordinal author rest,
       CmdEvent.binding_row Demo.time_format false 160 (0, Play.updated)
       = Ok (ordinal :: author :: CStr "30s" :: rest).
Proof.
  split; [reflexivity|]. split; [reflexivity|].
  destruct (binding_row_shows_last_update Demo.time_format false 160 0 Play.updated)
    as (ordinal & author & rest & Hupdated & _).
  - right. by exists Demo.builder.
  - exists ordinal, author, rest. apply (Hupdated 130). reflexivity.
Defined.

Lemma binding_row_valid_cell_witness :
  let row := CStr "1" :: CStr "anna" :: CStr "30s" :: CStr "Yes" :: nil in
  CmdEvent.binding_row Demo.time_format true 160 (0, Play.updated) = Ok row
  /\ exists cells,
       CmdEvent.binding_row Demo.time_format false 160 (0, Play.updated) = Ok cells
       /\ length cells = 3%nat
       /\ row = (cells ++ CStr "Yes" :: nil)%list.
Proof.
  intros row.
  assert (CmdEvent.binding_row Demo.time_format true 160 (0, Play.updated) = Ok row)
    as Hrow by (vm_compute; reflexivity).
  split; [exact Hrow|].
  destruct (binding_row_valid_cell Demo.time_format 160 0 Play.updated row Hrow)
    as (cells & Hcells & Hlen & Heq).
  exists cells. split; [exact Hcells|]. split; [exact Hlen|]. exact Heq.
Defined.

Lemma add_event_unknown_type_witness :
  Handler.get_event_types Demo.one_binding Demo.door !! "fly" = None
  /\ CmdEvent.add_event Play.self_fly Play.w
     = (Ok tt, with_trace Play.w
          (Enter m_add_event
           :: Msg Demo.builder
                "The event name fly can't be found in door of typeclass <class 'typeclasses.exits.Exit'>."
           :: nil)).
Proof.
  assert (Handler.get_event_types Demo.one_binding Demo.door !! "fly" = None) as Hty
    by (vm_compute; reflexivity).
  split; [exact Hty|].
  exact (add_event_unknown_type Play.self_fly Play.w Demo.one_binding eq_refl Hty).
Defined.

Lemma edit_event_unknown_name_witness :
  Handler.get_events Demo.one_binding Demo.door !! "fly" = None
  /\ CmdEvent.edit_event Py.ascii Play.self_fly Play.w
     = (Ok tt, with_trace Play.w
          (Enter m_edit_event
           :: Msg Demo.builder "The event name fly can't be found in door."
           :: nil)).
Proof.
  assert (Handler.get_events Demo.one_binding Demo.door !! "fly" = None) as Hev
    by (vm_compute; reflexivity).
  split; [exact Hev|].
  exact (edit_event_unknown_name Py.ascii Play.self_fly Play.w Demo.one_binding eq_refl Hev).
Defined.

Lemma edit_event_opens_session_witness :
  let (r, w') := CmdEvent.edit_event Py.ascii (Demo.self_open "1") Play.w in
  r = Ok tt
  /\ handler w' = handler Play.w
  /\ db_event w' !! dbref Demo.builder = Some Demo.session.
Proof.
  destruct (edit_event_opens_session Py.ascii (Demo.self_open "1") Play.w Demo.one_binding
              (Demo.binding "pass" true :: nil) 1
              ("character" :: nil, "When the door is opened." ++ String "010" "More."))
    as (event & Hevent & Hrun).
  - reflexivity.
  - vm_compute. reflexivity.
  - vm_compute. reflexivity.
  - simpl. lia.
  - vm_compute. reflexivity.
  - injection Hevent as <-.
    destruct (CmdEvent.edit_event Py.ascii (Demo.self_open "1") Play.w) as [r w'].
    destruct Hrun as (Hr & Hh & Hd & _).
    split; [exact Hr|]. split; [exact Hh|]. exact Hd.
Defined.


Lemma edit_event_needs_ordinal_witness :
  CmdEvent.edit_event Py.ascii (Demo.self_open "") Play.w
  = (Ok tt, with_trace Play.w
       (Enter m_edit_event
        :: Msg Demo.builder "The event open  cannot be found in door."
        :: nil)).
Proof.
  apply (edit_event_needs_ordinal Py.ascii (Demo.self_open "") Play.w Demo.one_binding
           (Demo.binding "pass" true :: nil)).
  - reflexivity.
  - vm_compute. reflexivity.
  - reflexivity.
Defined.

Lemma add_event_then_save_witness :
  let run := (CmdEvent.add_event (Demo.self_open "")
              ;; _ev_save Demo.settings Demo.builder "say hi")%cmd in
  (run Play.w).1 = Ok true
  /\ stored (run Play.w).2 Demo.door "open"
     = Some (Demo.binding "pass" true
             :: edited (Handler.new_binding "" Demo.builder false 160)
                  "say hi" Demo.builder false 160 :: nil).
Proof.
  apply (add_event_then_save Demo.settings (Demo.self_open "") "say hi" Play.w
           Demo.one_binding
           ("character" :: nil, "When the door is opened." ++ String "010" "More.")).
  - reflexivity.
  - vm_compute. reflexivity.
Defined.

Lemma edit_event_then_save_witness :
  let run := (CmdEvent.edit_event Py.ascii (Demo.self_open "1")
              ;; _ev_save Demo.settings Demo.builder "say hi")%cmd in
  (run Play.w).1 = Ok true
  /\ stored (run Play.w).2 Demo.door "open"
     = Some (edited (Demo.binding "pass" true) "say hi" Demo.builder false 160 :: nil).
Proof.
  apply (edit_event_then_save Py.ascii Demo.settings (Demo.self_open "1") "say hi" Play.w
           Demo.one_binding (Demo.binding "pass" true :: nil) 1
           ("character" :: nil, "When the door is opened." ++ String "010" "More.")
           (Demo.binding "pass" true)).
  - reflexivity.
  - vm_compute. reflexivity.
  - vm_compute. reflexivity.
  - simpl. lia.
  - vm_compute. reflexivity.
  - reflexivity.
  - by eexists.
Defined.

Lemma edit_event_then_load_witness :
  ((CmdEvent.edit_event Py.ascii (Demo.self_open "1") ;; _ev_load Demo.builder)%cmd Play.w).1
  = Ok (VStr "pass").
Proof.
  apply (edit_event_then_load Py.ascii (Demo.self_open "1") Play.w Demo.one_binding
           (Demo.binding "pass" true :: nil) 1
           ("character" :: nil, "When the door is opened." ++ String "010" "More.")
           (Demo.binding "pass" true) "pass").
  - reflexivity.
  - vm_compute. reflexivity.
  - vm_compute. reflexivity.
  - simpl. lia.
  - vm_compute. reflexivity.
  - reflexivity.
  - reflexivity.
Defined.

Lemma add_event_then_load_witness :
  ((CmdEvent.add_event (Demo.self_open "") ;; _ev_load Demo.builder)%cmd
     (Demo.editing Demo.nobody)).1
  = Ok (VStr "").
Proof.
  apply (add_event_then_load (Demo.self_open "") (Demo.editing Demo.nobody)
           Demo.one_binding
           ("character" :: nil, "When the door is opened." ++ String "010" "More.")).
  - reflexivity.
  - vm_compute. reflexivity.
Defined.

Lemma add_event_then_quit_witness :
  let run := (CmdEvent.add_event (Demo.self_open "") ;; _ev_quit Demo.builder)%cmd in
  (run Play.w).1 = Ok tt
  /\ db_event (run Play.w).2 !! dbref Demo.builder = None
  /\ stored (run Play.w).2 Demo.door "open"
     = Some (Demo.binding "pass" true
             :: Handler.new_binding "" Demo.builder false 160 :: nil).
Proof.
  apply (add_event_then_quit (Demo.self_open "") Play.w Demo.one_binding
           ("character" :: nil, "When the door is opened." ++ String "010" "More.")).
  - reflexivity.
  - vm_compute. reflexivity.
Defined.

Lemma ev_save_twice_witness :
  let w := Demo.editing Demo.nobody in
  let w1 := (_ev_save Demo.settings Demo.builder "first" w).2 in
  _ev_save Demo.settings Demo.builder "first" w = (Ok true, w1)
  /\ exists w2 d o n i l b,
       _ev_save Demo.settings Demo.builder "second" w1 = (Ok true, w2)
       /\ db_event w !! dbref Demo.builder = Some d
       /\ d !! "obj" = Some (VObj o) /\ d !! "name" = Some (VStr n)
       /\ d !! "number" = Some (VInt i)
       /\ stored w2 o n = Some l /\ l !! Z.to_nat i = Some b
       /\ code_of b = Some "second".
Proof.
  intros w w1.
  assert (_ev_save Demo.settings Demo.builder "first" w = (Ok true, w1)) as Hsave
    by (vm_compute; reflexivity).
  split; [exact Hsave|].
  exact (ev_save_twice Demo.settings Demo.builder "first" "second" w w1 Hsave).
Defined.

Lemma commands_keep_data_model_witness :
  world_wf Play.w
  /\ world_wf (CmdEvent.func Py.ascii Demo.settings Demo.time_format
                 (Demo.cmd ("add" :: nil) "door = open" "door" (Some "open"))
                 Play.w).2
  /\ world_wf (_ev_save Demo.settings Demo.builder "say hi" Play.w).2.
Proof.
  split; [exact play_wf|].
  exact (commands_keep_data_model Py.ascii Demo.settings Demo.time_format
           (Demo.cmd ("add" :: nil) "door = open" "door" (Some "open"))
           Demo.builder "say hi" Play.w play_wf).
Defined.

Lemma func_reads_rhs_witness :
  let cmd r := Demo.cmd ("edit" :: nil) "door = OPEN 1 2" "door" r in
  CmdEvent.func Py.ascii Demo.settings Demo.time_format (cmd (Some "OPEN 1 2")) Play.w
  = CmdEvent.edit_event Py.ascii (Demo.self_open "1 2") Play.w
  /\ CmdEvent.func Py.ascii Demo.settings Demo.time_format (cmd (Some "OPEN")) Play.w
     = CmdEvent.edit_event Py.ascii (Demo.self_open "") Play.w.
Proof.
  intros cmd.
  destruct (func_reads_rhs Py.ascii Demo.settings Demo.time_format (cmd None) Play.w
              Demo.one_binding Demo.door "OPEN" "1 2")
    as (Hparams & Hname & _);
    [reflexivity|vm_compute; discriminate|reflexivity|reflexivity|reflexivity|].
  split; [exact Hparams|exact Hname].
Defined.
